(** * ovirt4cli: the node tree of the oVirt shell and its host life cycle

    A shallow embedding of [ovirtcli/ui_root.py] and [ovirtcli/ui_ovirtcli.py].
    The commands of the shell are Python methods that mutate the node they
    are called on, talk to the oVirt engine through the SDK, write to the
    log and may raise.  They are embedded as computations in a state and
    exception monad [M Self]: the state is the node [self] together with the
    [World] outside the process (the chronological trace of SDK calls, log
    lines and sleeps, and the files on disk); a computation either returns
    or raises, and the state it leaves behind is kept in both cases, as in
    Python.  What the engine answers is not under the shell's control: it is
    an arbitrary function [engine] of the calls made so far. *)

From Stdlib Require Import String Ascii List ZArith Bool Lia DecimalString.
Import ListNotations.
Local Open Scope string_scope.
Local Open Scope list_scope.

Infix "+++" := String.append (at level 60, right associativity).

(** ** Values of the SDK *)

(** Modelled from the spec: the status enumeration [types.HostStatus] of the
    SDK is not part of the repository; section 4.3 of the specification names
    the states [UP], [MAINTENANCE], [NonOperational] and "others", and the
    source compares against exactly these three members. *)
Inductive HostStatus : Type :=
| UP
| MAINTENANCE
| NonOperational
| OtherStatus (label : string).

Definition HostStatus_eqb (a b : HostStatus) : bool :=
  match a, b with
  | UP, UP => true
  | MAINTENANCE, MAINTENANCE => true
  | NonOperational, NonOperational => true
  | OtherStatus x, OtherStatus y => String.eqb x y
  | _, _ => false
  end.

(** [str(status)], as it appears in a ['%s'] format. *)
Definition HostStatus_str (s : HostStatus) : string :=
  match s with
  | UP => "up"
  | MAINTENANCE => "maintenance"
  | NonOperational => "non_operational"
  | OtherStatus label => label
  end.

(** A remote object as the shell reads it: the attributes [id], [name],
    [status] and [address] that the commands below look at. *)
Record Resource : Type := mkResource {
  res_id : string;
  res_name : string;
  res_status : HostStatus;
  res_address : string
}.

(** The six categories of the tree, one UI class each. *)
Inductive Category : Type :=
| Datacenters | Clusters | Hosts | Storagedomains | Templates | VMs.

Definition Category_eqb (a b : Category) : bool :=
  match a, b with
  | Datacenters, Datacenters | Clusters, Clusters | Hosts, Hosts
  | Storagedomains, Storagedomains | Templates, Templates | VMs, VMs => true
  | _, _ => false
  end.

(** The node name each collection class passes to [UINode.__init__]. *)
Definition category_name (c : Category) : string :=
  match c with
  | Datacenters => "Datacenters"
  | Clusters => "Clusters"
  | Hosts => "Hosts"
  | Storagedomains => "Storagedomains"
  | Templates => "Templates"
  | VMs => "VMs"
  end.

(** [sdk.Connection(url=..., username=..., password=..., insecure=...)].
    Two connection objects built from the same arguments are still two
    objects: [conn_serial] is the length of the trace at construction. *)
Record Connection : Type := mkConnection {
  conn_url : string;
  conn_username : string;
  conn_password : string;
  conn_insecure : bool;
  conn_serial : nat
}.

(** The calls the shell makes on the SDK. *)
Inductive Call : Type :=
| CConnection (url username password : string) (insecure : bool)
| CTest (c : Connection)
| CClose (c : Connection)
| CList (cat : Category)
| CListSearch (cat : Category) (search : string)
| CAddDataCenter (name description : string) (local : bool)
| CAddHost (name description address root_password cluster : string)
| CGet (id : string)
| CRemove (cat : Category) (id : string)
| CActivate (id : string)
| CDeactivate (id : string).

(** What each call gives back when it does not raise.  [list] may give
    [None]: the source tests its result against [None]. *)
Definition reply (c : Call) : Type :=
  match c with
  | CConnection _ _ _ _ => unit
  | CTest _ => bool
  | CClose _ => unit
  | CList _ => option (list Resource)
  | CListSearch _ _ => option (list Resource)
  | CAddDataCenter _ _ _ => Resource
  | CAddHost _ _ _ _ _ => Resource
  | CGet _ => Resource
  | CRemove _ _ => unit
  | CActivate _ => unit
  | CDeactivate _ => unit
  end.

(** ** Exceptions, outcomes and the world *)

Inductive Exn : Type :=
| NameError (name : string)
| UnboundLocalError (name : string)
| AttributeError (attr : string)
| IndexError
| TypeError
| ValueError (msg : string)
| IOError (path : string)
| ExecutionError (msg : string)
| SdkError (msg : string).

Inductive Outcome (A : Type) : Type :=
| Returned (a : A)
| Raised (e : Exn).
Arguments Returned {A} a.
Arguments Raised {A} e.

Inductive Event : Type :=
| ECall (c : Call)
| ELog (msg : string)
| ESleep (seconds : Z).

(** The world outside the process: the chronological trace of what the
    process did, and the regular files and the directories on disk. *)
Record World : Type := mkWorld {
  trace : list Event;
  files : list string;
  dirs : list string
}.

Definition record_event (e : Event) (w : World) : World :=
  mkWorld (trace w ++ [e]) (files w) (dirs w).

Definition set_files (fs : list string) (w : World) : World :=
  mkWorld (trace w) fs (dirs w).

(** What the process cannot decide: the engine's answers, the clock, the
    home directory, and the two attributes the source reads on [self]
    that no class of the repository defines ([start_time] and
    [assert_admin]); the framework's base class, which is not part of the
    repository, decides whether they exist. *)
Record Env : Type := mkEnv {
  engine : forall (past : list Event) (c : Call), Outcome (reply c);
  clock : list Event -> Z;
  timestamp : list Event -> string;
  home : option string;
  user_home : string -> option string;
  start_time_attr : option Z;
  assert_admin_attr : option (Outcome unit)
}.

Record St (Self : Type) : Type := mkSt {
  self : Self;
  world : World
}.
Arguments mkSt {Self} self world.
Arguments self {Self} s.
Arguments world {Self} s.

Definition M (Self A : Type) : Type := St Self -> Outcome A * St Self.

Definition ret {Self A} (a : A) : M Self A := fun st => (Returned a, st).

Definition bind {Self A B} (m : M Self A) (k : A -> M Self B) : M Self B :=
  fun st =>
    match m st with
    | (Returned a, st') => k a st'
    | (Raised e, st') => (Raised e, st')
    end.

Definition raise {Self A} (e : Exn) : M Self A := fun st => (Raised e, st).

Notation "x <- m ;; k" := (bind m (fun x => k))
  (at level 61, m at next level, right associativity).
Notation "m ;; k" := (bind m (fun _ => k))
  (at level 61, right associativity).

(** [try: body / except: handler] with a bare [except], which catches
    every exception; what [body] did before raising stays done. *)
Definition try_except {Self A} (body handler : M Self A) : M Self A :=
  fun st =>
    match body st with
    | (Returned a, st') => (Returned a, st')
    | (Raised _, st') => handler st'
    end.

Definition get_self {Self} : M Self Self := fun st => (Returned (self st), st).

Definition modify_self {Self} (f : Self -> Self) : M Self unit :=
  fun st => (Returned tt, mkSt (f (self st)) (world st)).

Definition emit {Self} (e : Event) : M Self unit :=
  fun st => (Returned tt, mkSt (self st) (record_event e (world st))).

(** [self.shell.log.info(msg)] *)
Definition log_info {Self} (msg : string) : M Self unit := emit (ELog msg).

(** [for x in l: body(x)] *)
Fixpoint for_each {Self A} (l : list A) (body : A -> M Self unit) : M Self unit :=
  match l with
  | [] => ret tt
  | x :: l' => body x ;; for_each l' body
  end.

(** [l[0]] *)
Definition subscript0 {Self A} (l : option (list A)) : M Self A :=
  match l with
  | None => raise TypeError
  | Some [] => raise IndexError
  | Some (x :: _) => ret x
  end.

(** ** The nodes *)

(** A Resource Entry ([UIData_center], [UICluster], [UIStorage_domain],
    [UIHost], [UITemplate]): the class is fixed by the category of the
    collection that builds it.  Its own [refresh] sets its [_children] to
    the empty set, so an entry never has children. *)
Record Entry : Type := mkEntry {
  entry_class : Category;
  entry_name : string;
  entry_obj : Resource
}.

(** A Resource Collection node.  [_children] is a Python set of node
    objects; it is kept here as the list of the nodes in the order they
    were added, no command of the source depends on an order. *)
Record Collection : Type := mkCollection {
  coll_category : Category;
  coll_children : list Entry
}.

(** The root node: [_api], [_ip], [_children]. *)
Record Root : Type := mkRoot {
  api : option Connection;
  ip : option string;
  children : list Collection
}.

Section Shell.

Variable env : Env.

(** A call on the SDK: the engine answers from what happened so far, and
    the call is recorded whether it returns or raises. *)
Definition sdk_call {Self} (c : Call) : M Self (reply c) :=
  fun st =>
    (engine env (trace (world st)) c,
     mkSt (self st) (record_event (ECall c) (world st))).

(** [time.sleep(seconds)] and [time.time()] *)
Definition sleep {Self} (seconds : Z) : M Self unit := emit (ESleep seconds).

Definition time_time {Self} : M Self Z :=
  fun st => (Returned (clock env (trace (world st))), st).

(** *** Entries *)

(** [self._children = set([])] on a collection *)
Definition clear_children : M Collection unit :=
  modify_self (fun c => mkCollection (coll_category c) []).

(** [UINode.__init__(self, name, parent)] for an entry under a collection.
    The base constructor belongs to the shell framework: it refuses a name
    that a sibling already uses (ValueError) and otherwise adds the new
    node to the parent's children.  The entry's own [refresh], called last
    by every entry constructor, leaves the entry without children. *)
Definition new_entry (cls : Category) (obj : Resource) (name : string)
  : M Collection unit :=
  c <- get_self ;;
  if existsb (String.eqb name) (map entry_name (coll_children c))
  then raise (ValueError ("Name '" +++ name +++ "' already used by a sibling."))
  else modify_self (fun c =>
         mkCollection (coll_category c) (coll_children c ++ [mkEntry cls name obj])).

(** *** The collections' [refresh] *)

Definition UIData_centers_refresh : M Collection unit :=
  clear_children ;;
  dcs <- sdk_call (CList Datacenters) ;;
  match dcs with
  | Some dcs => for_each dcs (fun dc => new_entry Datacenters dc (res_name dc))
  | None => ret tt
  end.

Definition UIClusters_refresh : M Collection unit :=
  clear_children ;;
  clusters <- sdk_call (CList Clusters) ;;
  match clusters with
  | Some clusters =>
      for_each clusters (fun cluster => new_entry Clusters cluster (res_name cluster))
  | None => ret tt
  end.

Definition UIStorage_domains_refresh : M Collection unit :=
  clear_children ;;
  sds <- sdk_call (CList Storagedomains) ;;
  match sds with
  | Some sds => for_each sds (fun sd => new_entry Storagedomains sd (res_name sd))
  | None => ret tt
  end.

Definition UIHosts_refresh : M Collection unit :=
  clear_children ;;
  hosts <- sdk_call (CList Hosts) ;;
  match hosts with
  | Some hosts => for_each hosts (fun host => new_entry Hosts host (res_name host))
  | None => ret tt
  end.

(** The loop over the machines is commented out in the source. *)
Definition UIVMs_refresh : M Collection unit :=
  clear_children ;;
  _ <- sdk_call (CList VMs) ;;
  ret tt.

(** No test against [None] here: iterating [None] is a TypeError. *)
Definition UITemplates_refresh : M Collection unit :=
  clear_children ;;
  templates <- sdk_call (CList Templates) ;;
  match templates with
  | Some templates =>
      for_each templates (fun template => new_entry Templates template (res_name template))
  | None => raise TypeError
  end.

(** [node.refresh()] on a collection: the method of the node's class. *)
Definition Collection_refresh : M Collection unit :=
  c <- get_self ;;
  match coll_category c with
  | Datacenters => UIData_centers_refresh
  | Clusters => UIClusters_refresh
  | Hosts => UIHosts_refresh
  | Storagedomains => UIStorage_domains_refresh
  | Templates => UITemplates_refresh
  | VMs => UIVMs_refresh
  end.

(** *** Data centers *)

Definition UIData_centers_ui_command_create
  (name : string) (description : option string) (local : bool)
  : M Collection unit :=
  _ <- sdk_call (CAddDataCenter name
                   (match description with Some d => d | None => "" end) local) ;;
  UIData_centers_refresh.

(** The [try] block either binds [dc] or logs and returns from the
    command: [None] stands for that early return. *)
Definition UIData_centers_ui_command_delete (name : string) : M Collection unit :=
  let filter := "name=" +++ name in
  found <- try_except
             (l <- sdk_call (CListSearch Datacenters filter) ;;
              dc <- subscript0 l ;;
              ret (Some dc))
             (log_info ("Data center " +++ name +++ " not found. Check spelling") ;;
              ret None) ;;
  match found with
  | None => ret tt
  | Some dc =>
      sdk_call (CRemove Datacenters (res_id dc)) ;;
      UIData_centers_refresh
  end.

(** *** Hosts *)

(** [self.start_time]: [UIHosts] never assigns the attribute. *)
Definition self_start_time {Self} : M Self Z :=
  match start_time_attr env with
  | Some t => ret t
  | None => raise (AttributeError "start_time")
  end.

(** Reading the local variable [elapsed]: [None] is the unbound local. *)
Definition read_elapsed {Self} (elapsed : option bool) : M Self bool :=
  match elapsed with
  | Some b => ret b
  | None => raise (UnboundLocalError "elapsed")
  end.

Definition terminal_status (s : HostStatus) : bool :=
  HostStatus_eqb s UP || HostStatus_eqb s NonOperational.

(** The [while not elapsed:] loop of [UIHosts.ui_command_create], with the
    locals [host] and [elapsed] threaded through.  [fuel] bounds the number
    of times the loop condition is evaluated; the result [None] says that
    the fuel ran out before the loop was left. *)
Fixpoint poll_loop (fuel : nat) (host_id : string) (timeout : Z)
  (host : Resource) (elapsed : option bool)
  : M Collection (option (Resource * option bool)) :=
  match fuel with
  | O => ret None
  | S fuel' =>
      e <- read_elapsed elapsed ;;
      if e then ret (Some (host, elapsed))
      else
        sleep 5 ;;
        host <- sdk_call (CGet host_id) ;;
        if terminal_status (res_status host)
        then ret (Some (host, elapsed))
        else
          now <- time_time ;;
          start_time <- self_start_time ;;
          if (now - start_time >? timeout)%Z
          then ret (Some (host, Some true))
          else poll_loop fuel' host_id timeout host elapsed
  end.

(** The source assigns [elpased = False] and then reads [elapsed]: the
    local [elapsed] is unbound when the loop condition is first evaluated.
    [Returned None] says that [fuel] was too small. *)
Definition UIHosts_ui_command_create (fuel : nat)
  (name address password cluster : string) (description : option string)
  : M Collection (option unit) :=
  host <- sdk_call (CAddHost name
                      (match description with Some d => d | None => "" end)
                      address password cluster) ;;
  let host_id := res_id host in
  start_time <- time_time ;;
  let timeout := (15 * 60)%Z in
  let elpased := false in
  let elapsed : option bool := None in
  left <- poll_loop fuel host_id timeout host elapsed ;;
  match left with
  | None => ret None
  | Some (host, elapsed) =>
      if HostStatus_eqb (res_status host) UP
      then
        log_info "Host was successfully added." ;;
        UIHosts_refresh ;;
        ret (Some tt)
      else
        e <- read_elapsed elapsed ;;
        (if e || negb (HostStatus_eqb (res_status host) UP)
         then log_info ("Host was not added properly. Status: "
                        +++ HostStatus_str (res_status host))
         else ret tt) ;;
        ret (Some tt)
  end.

Definition find_host (name not_found : string) : M Collection (option Resource) :=
  let filter := "name=" +++ name in
  try_except
    (l <- sdk_call (CListSearch Hosts filter) ;;
     host <- subscript0 l ;;
     ret (Some host))
    (log_info not_found ;;
     ret None).

Definition UIHosts_ui_command_delete (name : string) : M Collection unit :=
  found <- find_host name ("Host " +++ name +++ " not found. Check spelling.") ;;
  match found with
  | None => ret tt
  | Some host =>
      if negb (HostStatus_eqb (res_status host) MAINTENANCE)
      then log_info "Host is not in Maintenance. Deactivate it first."
      else
        sdk_call (CRemove Hosts (res_id host)) ;;
        UIHosts_refresh
  end.

Definition UIHosts_ui_command_deactivate (name : string) : M Collection unit :=
  found <- find_host name ("Host " +++ name +++ " not found. Check spelling") ;;
  match found with
  | None => ret tt
  | Some host =>
      if negb (HostStatus_eqb (res_status host) MAINTENANCE)
      then
        sdk_call (CDeactivate (res_id host)) ;;
        UIHosts_refresh
      else ret tt
  end.

Definition UIHosts_ui_command_activate (name : string) : M Collection unit :=
  found <- find_host name ("Host " +++ name +++ " not found. Check spelling") ;;
  match found with
  | None => ret tt
  | Some host =>
      if negb (HostStatus_eqb (res_status host) UP)
      then
        sdk_call (CActivate (res_id host)) ;;
        UIHosts_refresh
      else ret tt
  end.

End Shell.

(** ** Paths and files *)

Definition slash : ascii := "/"%char.

(** [s.rstrip('/')] *)
Fixpoint rstrip_slash (s : string) : string :=
  match s with
  | EmptyString => EmptyString
  | String c s' =>
      match rstrip_slash s' with
      | EmptyString => if Ascii.eqb c slash then EmptyString else String c EmptyString
      | t => String c t
      end
  end.

(** [s[i:]] *)
Definition slice_from (i : nat) (s : string) : string :=
  substring i (String.length s - i) s.

(** [os.path.expanduser(path)] of [posixpath]: a leading [~] or [~user] is
    replaced by that user's home directory, with its trailing slashes
    stripped; the path comes back unchanged when it does not start with a
    tilde or when the home directory is not known. *)
Definition expanduser (env : Env) (path : string) : string :=
  if negb (prefix "~" path) then path
  else
    let i := match index 1 "/" path with
             | Some i => i
             | None => String.length path
             end in
    let userhome :=
      if Nat.eqb i 1 then home env
      else user_home env (substring 1 (i - 1) path) in
    match userhome with
    | None => path
    | Some userhome =>
        match rstrip_slash userhome +++ slice_from i path with
        | EmptyString => "/"
        | expanded => expanded
        end
    end.

(** [p[:p.rfind('/') + 1]]: the part of [p] up to its last slash, the
    slash included; [None] when [p] has no slash. *)
Fixpoint upto_last_slash (p : string) : option string :=
  match p with
  | EmptyString => None
  | String c p' =>
      match upto_last_slash p' with
      | Some head => Some (String c head)
      | None => if Ascii.eqb c slash then Some (String c EmptyString) else None
      end
  end.

(** [os.path.dirname(p)] *)
Definition dirname (p : string) : string :=
  let head := match upto_last_slash p with Some h => h | None => "" end in
  match rstrip_slash head with
  | EmptyString => head
  | stripped => stripped
  end.

Definition has_slash (s : string) : bool :=
  match index 0 "/" s with Some _ => true | None => false end.

Definition endswith (suffix s : string) : bool :=
  String.eqb suffix
    (substring (String.length s - String.length suffix) (String.length suffix) s).

(** [glob(directory + "/*.json")] over the files on disk: the regular
    files directly in [directory] whose name ends in [.json] and does not
    start with a dot. *)
Definition glob_json (directory : string) (fs : list string) : list string :=
  filter (fun f =>
            prefix (directory +++ "/") f
            && (let name := slice_from (String.length directory + 1) f in
                negb (has_slash name) && negb (prefix "." name)
                && endswith ".json" name))
         fs.

(** [sorted(l)] on strings *)
Fixpoint insert_sorted (s : string) (l : list string) : list string :=
  match l with
  | [] => [s]
  | x :: l' => if String.leb s x then s :: l else x :: insert_sorted s l'
  end.

Definition sorted (l : list string) : list string :=
  fold_right insert_sorted [] l.

Definition mem (s : string) (l : list string) : bool := existsb (String.eqb s) l.

Definition default_save_file : string := "~/ovirtlcli.json".
Definition kept_backups : nat := 10.

(** The names bound at module level in [ui_root.py]: its imports, its two
    constants and its class. *)
Definition ui_root_globals : list string :=
  ["os"; "shutil"; "stat"; "datetime"; "glob"; "sdk"; "ExecutionError";
   "complete_path"; "UINode"; "UIData_centers"; "UIClusters";
   "UIStorage_domains"; "UITemplates"; "UIVMs"; "UIHosts";
   "default_save_file"; "kept_backups"; "UIRoot"].

(** Reading a name that is not a local of the function: [bound] is what
    the read gives when the module binds the name, a NameError otherwise
    (the names read this way below are not builtins either). *)
Definition load_global {Self A} (name : string) (bound : M Self A) : M Self A :=
  if mem name ui_root_globals then bound else raise (NameError name).

Definition get_world {Self} : M Self World := fun st => (Returned (world st), st).

Definition put_files {Self} (fs : list string) : M Self unit :=
  fun st => (Returned tt, mkSt (self st) (set_files fs (world st))).

(** [shutil.copy(src, dst)] with [dst] a file path: an IOError when [src]
    is not a file or the directory of [dst] does not exist. *)
Definition shutil_copy {Self} (src dst : string) : M Self unit :=
  w <- get_world ;;
  if negb (mem src (files w)) then raise (IOError src)
  else if negb (mem (dirname dst) (dirs w)) then raise (IOError dst)
  else if mem dst (files w) then ret tt
  else put_files (files w ++ [dst]).

(** [os.unlink(f)] *)
Definition os_unlink {Self} (f : string) : M Self unit :=
  w <- get_world ;;
  if mem f (files w)
  then put_files (filter (fun g => negb (String.eqb f g)) (files w))
  else raise (IOError f).

(** The body of a [with] block whose context manager swallows IOError. *)
Definition suppress_IOError {Self} (body : M Self unit) : M Self unit :=
  fun st =>
    match body st with
    | (Raised (IOError _), st') => (Returned tt, st')
    | r => r
    end.

Definition newline : string := String (ascii_of_nat 10) EmptyString.

Definition str_of_nat (n : nat) : string := NilEmpty.string_of_uint (Nat.to_uint n).

(** ** The root node *)

Section RootNode.

Variable env : Env.

(** [UIRoot.__init__]: no session, no children. *)
Definition UIRoot_init : Root := mkRoot None None [].

(** The constructor of a collection class called with the root as parent:
    [UINode.__init__] adds the new node to the root's children (the
    framework refuses a name a sibling already has), then the constructor
    takes its service from [api] and calls the node's own [refresh].  What
    [refresh] did to the new node is seen through the root's children also
    when it raises. *)
Definition new_collection (cat : Category) (refresh : M Collection unit)
  : M Root unit :=
  fun st =>
    let r := self st in
    if mem (category_name cat)
           (map (fun c => category_name (coll_category c)) (children r))
    then (Raised (ValueError ("Name '" +++ category_name cat
                              +++ "' already used by a sibling.")), st)
    else
      let (o, st') := refresh (mkSt (mkCollection cat []) (world st)) in
      (o, mkSt (mkRoot (api r) (ip r) (children r ++ [self st'])) (world st')).

Definition UIData_centers_init (a : Connection) : M Root unit :=
  new_collection Datacenters (UIData_centers_refresh env).
Definition UIClusters_init (a : Connection) : M Root unit :=
  new_collection Clusters (UIClusters_refresh env).
Definition UIHosts_init (a : Connection) : M Root unit :=
  new_collection Hosts (UIHosts_refresh env).
Definition UIStorage_domains_init (a : Connection) : M Root unit :=
  new_collection Storagedomains (UIStorage_domains_refresh env).
Definition UITemplates_init (a : Connection) : M Root unit :=
  new_collection Templates (UITemplates_refresh env).
Definition UIVMs_init (a : Connection) : M Root unit :=
  new_collection VMs (UIVMs_refresh env).

Definition UIRoot_refresh : M Root unit :=
  modify_self (fun r => mkRoot (api r) (ip r) []) ;;
  r <- get_self ;;
  match api r with
  | Some a =>
      UIData_centers_init a ;;
      UIClusters_init a ;;
      UIHosts_init a ;;
      UIStorage_domains_init a ;;
      UITemplates_init a ;;
      UIVMs_init a
  | None => ret tt
  end.

(** [sdk.Connection(...)]: a new connection object. *)
Definition sdk_Connection (url username password : string) (insecure : bool)
  : M Root Connection :=
  w <- get_world ;;
  sdk_call env (CConnection url username password insecure) ;;
  ret (mkConnection url username password insecure (List.length (trace w))).

(** The command returns [None], or [False] on the branch taken when the
    new [_api] is [None].  There is no [return] after the
    "Already connected" log line. *)
Definition UIRoot_ui_command_connect (username password address : string)
  : M Root (option bool) :=
  r <- get_self ;;
  (match api r with
   | Some _ => log_info "Already connected. Disconnect first"
   | None => ret tt
   end) ;;
  let full_url := "https://" +++ address +++ "/ovirt-engine/api" in
  log_info ("Connecting to " +++ address +++ "...") ;;
  conn <- sdk_Connection full_url username password true ;;
  modify_self (fun r => mkRoot (Some conn) (ip r) (children r)) ;;
  r <- get_self ;;
  match api r with
  | None =>
      log_info "Failed to create API object " ;;
      ret (Some false)
  | Some a =>
      ok <- sdk_call env (CTest a) ;;
      if negb ok
      then
        log_info "Failed to test connection to oVirt Engine." ;;
        ret None
      else
        log_info "Connected to oVirt Engine." ;;
        modify_self (fun r => mkRoot (api r) (Some address) (children r)) ;;
        UIRoot_refresh ;;
        ret None
  end.

Definition UIRoot_ui_command_disconnect : M Root unit :=
  r <- get_self ;;
  (match api r with
   | Some a =>
       sdk_call env (CClose a) ;;
       modify_self (fun r => mkRoot None (ip r) (children r)) ;;
       modify_self (fun r => mkRoot (api r) None (children r)) ;;
       log_info "Disconnected from oVirt Engine."
   | None => log_info "Already disconnected from oVirt Engine."
   end) ;;
  UIRoot_refresh.

(** [savefile] is [None] when the caller leaves the default argument. *)
Definition UIRoot_ui_command_saveconfig (savefile : option string) : M Root unit :=
  let savefile := match savefile with Some f => f | None => default_save_file end in
  let savefile := expanduser env savefile in
  (if String.eqb savefile default_save_file
   then
     let backup_dir := dirname savefile +++ "/backup" in
     w <- get_world ;;
     let backup_name := "saveconfig-" +++ timestamp env (trace w) +++ ".json" in
     let backupfile := backup_dir +++ "/" +++ backup_name in
     load_global "ignored" (suppress_IOError (shutil_copy savefile backupfile)) ;;
     w <- get_world ;;
     let backups := sorted (glob_json (dirname savefile +++ "/backup") (files w)) in
     let files_to_unlink := skipn kept_backups (rev backups) in
     for_each files_to_unlink os_unlink ;;
     log_info ("Last " +++ str_of_nat kept_backups +++ " configs saved in "
               +++ backup_dir +++ ".")
   else ret tt) ;;
  log_info ("Configuration saved to " +++ savefile).

(** [self.assert_admin()]: neither [UIRoot] nor [UINode] defines it, so in
    the program as it stands the attribute is missing ([None]); [Some]
    stands for a base class that would provide the method. *)
Definition assert_admin {Self} : M Self unit :=
  match assert_admin_attr env with
  | Some o => fun st => (o, st)
  | None => raise (AttributeError "assert_admin")
  end.

(** The assignment to [errors] is commented out in the source, so the
    name is looked up in the module. *)
Definition UIRoot_ui_command_restoreconfig
  (savefile : option string) (clear_existing : bool) : M Root unit :=
  let savefile := match savefile with Some f => f | None => default_save_file end in
  assert_admin ;;
  let savefile := expanduser env savefile in
  w <- get_world ;;
  if negb (mem savefile (files w))
  then log_info ("Restore file " +++ savefile +++ " not found")
  else
    UIRoot_refresh ;;
    errors <- load_global "errors" (ret ([] : list string)) ;;
    (match errors with
     | [] => ret tt
     | _ => raise (ExecutionError
                     ("Configuration restored, " +++ str_of_nat (List.length errors)
                      +++ " recoverable errors:" +++ newline
                      +++ String.concat newline errors))
     end) ;;
    log_info ("Configuration restored from " +++ savefile).

(** *** The commands an operator can run *)

Inductive RootCommand : Type :=
| connect (username password address : string)
| disconnect
| refresh
| saveconfig (savefile : option string)
| restoreconfig (savefile : option string) (clear_existing : bool).

Definition run_root_command (c : RootCommand) : M Root unit :=
  match c with
  | connect username password address =>
      UIRoot_ui_command_connect username password address ;; ret tt
  | disconnect => UIRoot_ui_command_disconnect
  | refresh => UIRoot_refresh
  | saveconfig savefile => UIRoot_ui_command_saveconfig savefile
  | restoreconfig savefile clear_existing =>
      UIRoot_ui_command_restoreconfig savefile clear_existing
  end.

Inductive CollectionCommand : Type :=
| coll_refresh
| dc_create (name : string) (description : option string) (local : bool)
| dc_delete (name : string)
| host_create (fuel : nat) (name address password cluster : string)
              (description : option string)
| host_delete (name : string)
| host_deactivate (name : string)
| host_activate (name : string).

(** A command runs on a node whose class defines it; the shell refuses
    the others before any method is called. *)
Definition command_not_found {Self A} : M Self A :=
  raise (ExecutionError "Command not found").

Definition run_collection_command (c : CollectionCommand) : M Collection unit :=
  node <- get_self ;;
  match c, coll_category node with
  | coll_refresh, _ => Collection_refresh env
  | dc_create name description local, Datacenters =>
      UIData_centers_ui_command_create env name description local
  | dc_delete name, Datacenters => UIData_centers_ui_command_delete env name
  | host_create fuel name address password cluster description, Hosts =>
      UIHosts_ui_command_create env fuel name address password cluster description ;;
      ret tt
  | host_delete name, Hosts => UIHosts_ui_command_delete env name
  | host_deactivate name, Hosts => UIHosts_ui_command_deactivate env name
  | host_activate name, Hosts => UIHosts_ui_command_activate env name
  | _, _ => command_not_found
  end.

(** [m] run [n] times in a row; the sequence stops at the first raise. *)
Fixpoint times {Self} (n : nat) (m : M Self unit) : M Self unit :=
  match n with
  | O => ret tt
  | S k => m ;; times k m
  end.

(** The same, where the shell's loop reports a raised error and goes on
    with the next command. *)
Fixpoint times_in_shell {Self} (n : nat) (m : M Self unit) (st : St Self) : St Self :=
  match n with
  | O => st
  | S k => times_in_shell k m (snd (m st))
  end.

(** The child at position [i] replaced. *)
Fixpoint replace_nth {A} (i : nat) (x : A) (l : list A) : list A :=
  match l, i with
  | [], _ => []
  | _ :: l', O => x :: l'
  | y :: l', S j => y :: replace_nth j x l'
  end.

(** The root nodes a run of the shell can produce: from the fresh root, by
    commands on the root and by commands on a collection under it, whatever
    the world is at each command. *)
Inductive reachable : Root -> Prop :=
| reach_init : reachable UIRoot_init
| reach_root :
    forall r w c o st',
      reachable r ->
      run_root_command c (mkSt r w) = (o, st') ->
      reachable (self st')
| reach_child :
    forall r w i node c o st',
      reachable r ->
      nth_error (children r) i = Some node ->
      run_collection_command c (mkSt node w) = (o, st') ->
      reachable (mkRoot (api r) (ip r) (replace_nth i (self st') (children r))).

End RootNode.

(** ** Reading traces *)

(** The calls that change something on the engine. *)
Definition is_mutating (e : Event) : bool :=
  match e with
  | ECall (CAddDataCenter _ _ _) | ECall (CAddHost _ _ _ _ _)
  | ECall (CRemove _ _) | ECall (CActivate _) | ECall (CDeactivate _) => true
  | _ => false
  end.

Definition mutations (t : list Event) : list Event := filter is_mutating t.

Definition is_log (e : Event) : bool :=
  match e with ELog _ => true | _ => false end.

Definition log_lines (t : list Event) : list Event := filter is_log t.

(** What [list(search=filter)[0]] inside the bare [try] gives: the first
    match, or nothing when the call raises, gives [None] or gives an empty
    list. *)
Definition first_match (o : Outcome (option (list Resource))) : option Resource :=
  match o with
  | Returned (Some (x :: _)) => Some x
  | _ => None
  end.

Definition entry_of (cat : Category) (r : Resource) : Entry :=
  mkEntry cat (res_name r) r.

Definition six_categories : list Category :=
  [Datacenters; Clusters; Hosts; Storagedomains; Templates; VMs].

(** An engine whose listings always come back as lists of distinctly
    named objects. *)
Definition listings_ok (env : Env) : Prop :=
  forall past cat,
    exists l, engine env past (CList cat) = Returned (Some l)
              /\ NoDup (map res_name l).


(** The [refresh] of the class of each category. *)
Definition class_refresh (env : Env) (cat : Category) : M Collection unit :=
  match cat with
  | Datacenters => UIData_centers_refresh env
  | Clusters => UIClusters_refresh env
  | Hosts => UIHosts_refresh env
  | Storagedomains => UIStorage_domains_refresh env
  | Templates => UITemplates_refresh env
  | VMs => UIVMs_refresh env
  end.

(** What every [refresh] of a collection has in common: the class of the
    node stays, and the one thing done outside is the listing call. *)
Definition refresh_like (cat : Category) (rf : M Collection unit) : Prop :=
  forall st,
    coll_category (self (snd (rf st))) = coll_category (self st)
    /\ world (snd (rf st)) = record_event (ECall (CList cat)) (world st).

(** The invariant of the root: without a session it has no children. *)
Definition session_inv (r : Root) : Prop := api r = None -> children r = [].

(** ** A concrete engine, for running the commands *)

Module Demo.

Definition inventory (cat : Category) : list string :=
  match cat with
  | Hosts => ["node1"; "node2"]
  | VMs => ["vm1"]
  | _ => ["Default"]
  end.

Definition resource (status : HostStatus) (name : string) : Resource :=
  mkResource ("id-" +++ name) name status "10.0.0.1".

(** Every listed object has the status [status]; a search by name gives
    the objects of that name; every other call succeeds. *)
Definition answers (status : HostStatus)
  : forall (past : list Event) (c : Call), Outcome (reply c) :=
  fun past c =>
    match c return Outcome (reply c) with
    | CConnection _ _ _ _ => Returned tt
    | CTest _ => Returned true
    | CClose _ => Returned tt
    | CList cat => Returned (Some (map (resource status) (inventory cat)))
    | CListSearch cat search =>
        Returned (Some (map (resource status)
                          (filter (fun n => String.eqb ("name=" +++ n) search)
                                  (inventory cat))))
    | CAddDataCenter name _ _ => Returned (resource UP name)
    | CAddHost name _ _ _ _ => Returned (resource (OtherStatus "installing") name)
    | CGet id => Returned (mkResource id "node3" (OtherStatus "installing") "10.0.0.3")
    | CRemove _ _ => Returned tt
    | CActivate _ => Returned tt
    | CDeactivate _ => Returned tt
    end.

Definition env (status : HostStatus) (admin : option (Outcome unit)) : Env :=
  mkEnv (answers status) (fun past => Z.of_nat (List.length past))
        (fun _ => "20170301-12:00:00") (Some "/root") (fun _ => None)
        None admin.

Definition backup (n : nat) : string :=
  "/root/backup/saveconfig-201703" +++ str_of_nat n +++ "-12:00:00.json".

Definition disk : World :=
  mkWorld [] ["/root/ovirtlcli.json"] ["/root"; "/root/backup"].

Definition disk_with_backups : World :=
  mkWorld [] ("/root/ovirtlcli.json" :: map backup (seq 10 11))
          ["/root"; "/root/backup"].

Definition old_connection : Connection :=
  mkConnection "https://engine-a/ovirt-engine/api" "admin@internal" "secret" true 1.

Definition connected_root : Root := mkRoot (Some old_connection) (Some "engine-a") [].

Definition hosts_node : Collection :=
  mkCollection Hosts [entry_of Hosts (resource UP "node1");
                      entry_of Hosts (resource UP "node2")].

End Demo.

(** ** The size helpers of [ui_ovirtcli.py] *)

(** [s.replace('i', '')] *)
Fixpoint remove_i (s : string) : string :=
  match s with
  | EmptyString => EmptyString
  | String c s' =>
      if Ascii.eqb c "i" then remove_i s' else String c (remove_i s')
  end.

Definition is_digit (c : ascii) : bool :=
  (48 <=? nat_of_ascii c)%nat && (nat_of_ascii c <=? 57)%nat.

(** [s.lower()].  A text of the model is a sequence of characters with
    code points below 256.  On these, [lower] moves the letters [A] to [Z]
    and the capital letters from 192 to 222 (215, the multiplication sign,
    is none) 32 places up and leaves the rest alone; no character from 128
    on becomes an ASCII character.  Texts with characters beyond 255 are
    outside the model: among them is the Kelvin sign U+212A, which
    [lower] turns into the letter [k]. *)
Definition lower_char (c : ascii) : ascii :=
  let n := nat_of_ascii c in
  if ((65 <=? n)%nat && (n <=? 90)%nat)
     || ((192 <=? n)%nat && (n <=? 222)%nat && negb (n =? 215)%nat)
  then ascii_of_nat (n + 32)
  else c.

Fixpoint lower (s : string) : string :=
  match s with
  | EmptyString => EmptyString
  | String c s' => String (lower_char c) (lower s')
  end.

Fixpoint skip_digits (s : string) : string :=
  match s with
  | EmptyString => EmptyString
  | String c s' => if is_digit c then skip_digits s' else s
  end.

(** The character class [[k|m|g|t]] of the pattern: the bars are members
    of the class like the letters. *)
Definition in_unit_class (c : ascii) : bool :=
  existsb (Ascii.eqb c) ["k"; "|"; "m"; "g"; "t"]%char.

(** [$]: the end of the string, or the line feed that ends it. *)
Definition at_end (s : string) : bool :=
  String.eqb s EmptyString || String.eqb s newline.

(** The pattern after its digits: [[k|m|g|t]?[b]?$]. *)
Definition unit_b_end (after_digits : string) : bool :=
  let after_unit :=
    match after_digits with
    | String u rest => if in_unit_class u then rest else after_digits
    | EmptyString => after_digits
    end in
  let after_b :=
    match after_unit with
    | String b rest => if Ascii.eqb b "b" then rest else after_unit
    | EmptyString => after_unit
    end in
  at_end after_b.

(** [re.match("^[0-9]+[k|m|g|t]?[b]?$", s)]: digits, then at most one
    character of the class, then at most one [b], then the end.  No
    character can be taken by two parts of the pattern, so the greedy
    reading is the only way to match. *)
Definition size_format (s : string) : bool :=
  match s with
  | EmptyString => false
  | String c _ => is_digit c && unit_b_end (skip_digits s)
  end.

(** [s.rstrip(chars)] *)
Fixpoint rstrip (chars : list ascii) (s : string) : string :=
  match s with
  | EmptyString => EmptyString
  | String c s' =>
      match rstrip chars s' with
      | EmptyString =>
          if existsb (Ascii.eqb c) chars then EmptyString else String c EmptyString
      | t => String c t
      end
  end.

(** [s[-1]] and [s[:-1]] *)
Fixpoint last_char (s : string) : option ascii :=
  match s with
  | EmptyString => None
  | String c EmptyString => Some c
  | String _ s' => last_char s'
  end.

Fixpoint drop_last (s : string) : string :=
  match s with
  | EmptyString => EmptyString
  | String c EmptyString => EmptyString
  | String c s' => String c (drop_last s')
  end.

Definition units : list ascii := ["k"; "m"; "g"; "t"]%char.

(** [l.index(c)]; [None] is the ValueError of a missing element. *)
Fixpoint list_index (c : ascii) (l : list ascii) : option nat :=
  match l with
  | [] => None
  | x :: l' =>
      if Ascii.eqb x c then Some O
      else match list_index c l' with
           | Some i => Some (S i)
           | None => None
           end
  end.

Definition digit_value (c : ascii) : Z := Z.of_nat (nat_of_ascii c - 48).

(** The number a string of digits writes, read from the left. *)
Fixpoint digits_value (acc : Z) (s : string) : Z :=
  match s with
  | EmptyString => acc
  | String c s' => digits_value (10 * acc + digit_value c)%Z s'
  end.

Fixpoint all_digits (s : string) : bool :=
  match s with
  | EmptyString => true
  | String c s' => is_digit c && all_digits s'
  end.

Definition is_space (c : ascii) : bool :=
  existsb (Nat.eqb (nat_of_ascii c)) [9; 10; 11; 12; 13; 32].

Fixpoint lstrip_space (s : string) : string :=
  match s with
  | EmptyString => EmptyString
  | String c s' => if is_space c then lstrip_space s' else s
  end.

Fixpoint rstrip_space (s : string) : string :=
  match s with
  | EmptyString => EmptyString
  | String c s' =>
      match rstrip_space s' with
      | EmptyString => if is_space c then EmptyString else String c EmptyString
      | t => String c t
      end
  end.

(** [repr(s)] for the strings that reach [int] here: quotes around the
    text, a line feed written as backslash and [n]. *)
Fixpoint escape_newlines (s : string) : string :=
  match s with
  | EmptyString => EmptyString
  | String c s' =>
      if Ascii.eqb c (ascii_of_nat 10)
      then String (ascii_of_nat 92) (String "n"%char (escape_newlines s'))
      else String c (escape_newlines s')
  end.

Definition py_repr (s : string) : string := "'" +++ escape_newlines s +++ "'".

(** The digits a text starts with. *)
Fixpoint leading_digits (s : string) : nat :=
  match s with
  | EmptyString => 0
  | String c s' => if is_digit c then S (leading_digits s') else 0
  end.

(** The limit of [int] on the number of digits of its text
    ([sys.get_int_max_str_digits()], 4300 unless it was changed): a limit of
    0 is no limit, which is also how the interpreters behave that have none
    (Python 2, and Python 3 before the limit was introduced); texts of up
    to 640 digits are never refused. *)
Definition exceeds_digit_limit (max_str_digits digits : nat) : bool :=
  (640 <? digits)%nat && (0 <? max_str_digits)%nat && (max_str_digits <? digits)%nat.

(** [int(s)] on the strings that passed the format check: white space
    around the text is ignored; the digits the text starts with are
    counted against the limit, before anything else is looked at; the text
    must then be digits.  (The sign and the underscores that [int] also
    reads cannot occur in these strings.) *)
Definition py_int (max_str_digits : nat) (s : string) : Outcome Z :=
  let text := rstrip_space (lstrip_space s) in
  if exceeds_digit_limit max_str_digits (leading_digits text)
  then Raised (ValueError
                 ("Exceeds the limit (" +++ str_of_nat max_str_digits
                  +++ " digits) for integer string conversion: value has "
                  +++ str_of_nat (leading_digits text)
                  +++ " digits; use sys.set_int_max_str_digits() to increase the limit"))
  else
    match text with
    | EmptyString =>
        Raised (ValueError ("invalid literal for int() with base 10: " +++ py_repr s))
    | _ =>
        if all_digits text then Returned (digits_value 0 text)
        else Raised (ValueError ("invalid literal for int() with base 10: " +++ py_repr s))
    end.

(** [human_to_bytes(hsize, kilo)], run by an interpreter whose limit on
    the digits of [int] is [max_str_digits].  The class [RTSLibError] that
    the source raises on a refused format is bound nowhere in the module:
    the [raise] statement ends in a NameError when it evaluates the name.
    [units.index(size[-1])] raises the ValueError that the [try] catches;
    the [int] in the handler is outside of it. *)
Definition human_to_bytes (max_str_digits : nat) (hsize : string) (kilo : Z)
  : Outcome Z :=
  let size := remove_i hsize in
  let size := lower size in
  if negb (size_format size) then Raised (NameError "RTSLibError")
  else
    let size := rstrip ["i"; "b"]%char size in
    match last_char size with
    | None => Raised IndexError
    | Some c =>
        match list_index c units with
        | None =>
            let power := 0%nat in
            match py_int max_str_digits size with
            | Returned size => Returned (size * kilo ^ Z.of_nat power)%Z
            | Raised e => Raised e
            end
        | Some i =>
            let power := (i + 1)%nat in
            match py_int max_str_digits (drop_last size) with
            | Returned size => Returned (size * kilo ^ Z.of_nat power)%Z
            | Raised e => Raised e
            end
        end
    end.

(** ** Path completion *)

(** What [glob.glob] and [os.stat] answer. *)
Record Disk : Type := mkDisk {
  glob_glob : string -> list string;
  os_stat : string -> Outcome Z
}.

(** [stat.S_ISDIR(mode)] and [stat.S_ISREG(mode)] *)
Definition S_IFMT (mode : Z) : Z := Z.land mode 61440.
Definition S_ISDIR (mode : Z) : bool := (S_IFMT mode =? 16384)%Z.
Definition S_ISREG (mode : Z) : bool := (S_IFMT mode =? 32768)%Z.

(** The loop of [complete_path] over the entries the glob gave. *)
Fixpoint complete_path_loop (disk : Disk) (stat_fn : Z -> bool)
  (entries : list string) (filtered : list string) : Outcome (list string) :=
  match entries with
  | [] => Returned filtered
  | entry :: rest =>
      match os_stat disk entry with
      | Raised e => Raised e
      | Returned st =>
          if S_ISDIR st
          then complete_path_loop disk stat_fn rest (filtered ++ [entry +++ "/"])
          else if stat_fn st
               then complete_path_loop disk stat_fn rest (filtered ++ [entry])
               else complete_path_loop disk stat_fn rest filtered
      end
  end.

(** [lambda s: '~'+s if s.endswith('/') else s] *)
Definition sort_key (s : string) : string :=
  if endswith "/" s then "~" +++ s else s.

(** [sorted(l, key=key)]: stable, by the order of the keys. *)
Fixpoint insert_by (key : string -> string) (s : string) (l : list string)
  : list string :=
  match l with
  | [] => [s]
  | x :: l' =>
      if String.leb (key s) (key x) then s :: l else x :: insert_by key s l'
  end.

Definition sorted_by (key : string -> string) (l : list string) : list string :=
  fold_right (insert_by key) [] l.

Definition complete_path (disk : Disk) (path : string) (stat_fn : Z -> bool)
  : Outcome (list string) :=
  match complete_path_loop disk stat_fn (glob_glob disk (path +++ "*")) [] with
  | Raised e => Raised e
  | Returned filtered => Returned (sorted_by sort_key filtered)
  end.

(** [UIRoot.ui_complete_saveconfig], also bound to
    [ui_complete_restoreconfig]. *)
Definition ui_complete_saveconfig (disk : Disk) (text current_param : string)
  : Outcome (list string) :=
  if negb (String.eqb current_param "savefile") then Returned []
  else
    match complete_path disk text S_ISREG with
    | Raised e => Raised e
    | Returned completions =>
        match completions with
        | [c] => if negb (endswith "/" c) then Returned [c +++ " "]
                 else Returned completions
        | _ => Returned completions
        end
    end.

(** ** The base node: [ui_node.py] *)

(** [UINode.get_api] and [UINode.is_connected], on the root. *)
Definition get_api (r : Root) : option Connection := api r.

Definition is_connected (r : Root) : bool :=
  match api r with
  | Some _ => true
  | None => false
  end.

(** What [ui_type_yesno] returns: a text, or the tuple of the values. *)
Inductive YesNo : Type :=
| YesNoText (text : string)
| YesNoEnum (values : list string).

(** [UINode.ui_type_yesno(value, enum, reverse)]; [value] is [None] when
    the argument is left out. *)
Definition ui_type_yesno (value : option string) (enum reverse : bool)
  : Outcome YesNo :=
  if reverse
  then match value with
       | Some v => Returned (YesNoText v)
       | None => Returned (YesNoText "n/a")
       end
  else
    let type_enum := ["Yes"; "No"] in
    let syntax := String.concat "|" type_enum in
    match value with
    | None => if enum then Returned (YesNoEnum type_enum)
              else Returned (YesNoText syntax)
    | Some v =>
        if mem v type_enum then Returned (YesNoText v)
        else Raised (ValueError ("Syntax error, '" +++ v +++ "' is not "
                                 +++ syntax +++ "."))
    end.

(** ** The summaries of the collections *)

(** [len(l)]: a TypeError on [None]. *)
Definition py_len {Self A} (l : option (list A)) : M Self nat :=
  match l with
  | Some l => ret (List.length l)
  | None => raise TypeError
  end.

(** The second component of every summary is [None]. *)
Definition Summary : Type := (string * option bool)%type.

Definition UIData_centers_summary (env : Env) : M Collection Summary :=
  dcs <- sdk_call env (CList Datacenters) ;;
  n <- py_len dcs ;;
  ret ("Data Centers: " +++ str_of_nat n, None).

Definition UIClusters_summary (env : Env) : M Collection Summary :=
  clusters <- sdk_call env (CList Clusters) ;;
  n <- py_len clusters ;;
  ret ("Clusters: " +++ str_of_nat n, None).

Definition UIStorage_domains_summary (env : Env) : M Collection Summary :=
  sds <- sdk_call env (CList Storagedomains) ;;
  n <- py_len sds ;;
  ret ("Storage Domains: " +++ str_of_nat n, None).

(** The loop [for host in hosts: if host.status == UP: up += 1] *)
Fixpoint count_up (hosts : list Resource) (up : nat) : nat :=
  match hosts with
  | [] => up
  | host :: rest =>
      count_up rest (if HostStatus_eqb (res_status host) UP then up + 1 else up)
  end.

Definition UIHosts_summary (env : Env) : M Collection Summary :=
  hosts <- sdk_call env (CList Hosts) ;;
  match hosts with
  | None => ret ("no hosts", None)
  | Some hosts =>
      let up := count_up hosts 0 in
      ret (str_of_nat (List.length hosts) +++ " hosts (" +++ str_of_nat up
           +++ " UP)", None)
  end.

Definition UIVMs_summary (env : Env) : M Collection Summary :=
  vms <- sdk_call env (CList VMs) ;;
  num_vms <- py_len vms ;;
  ret ("Virtual Machines: " +++ str_of_nat num_vms, None).

Definition UITemplates_summary (env : Env) : M Collection Summary :=
  templates <- sdk_call env (CList Templates) ;;
  n <- py_len templates ;;
  ret ("Templates: " +++ str_of_nat n, None).

(** [node.summary()] on a collection: the method of the node's class. *)
Definition Collection_summary (env : Env) : M Collection Summary :=
  c <- get_self ;;
  match coll_category c with
  | Datacenters => UIData_centers_summary env
  | Clusters => UIClusters_summary env
  | Hosts => UIHosts_summary env
  | Storagedomains => UIStorage_domains_summary env
  | Templates => UITemplates_summary env
  | VMs => UIVMs_summary env
  end.


(** A host whose status is UP. *)
Definition is_up (host : Resource) : bool := HostStatus_eqb (res_status host) UP.

Module DemoNone.

(** An engine whose listings give [None]. *)
Definition env : Env :=
  mkEnv (fun past c =>
           match c return Outcome (reply c) with
           | CList _ => Returned None
           | other => Demo.answers UP past other
           end)
        (fun _ => 0%Z) (fun _ => "") (Some "/root") (fun _ => None) None None.

End DemoNone.

Module DemoUnverified.

(** An engine that builds connections and fails their test. *)
Definition env : Env :=
  mkEnv (fun past c =>
           match c return Outcome (reply c) with
           | CTest _ => Returned false
           | other => Demo.answers UP past other
           end)
        (fun _ => 0%Z) (fun _ => "") (Some "/root") (fun _ => None) None None.

End DemoUnverified.

(** The completions whose sort key comes before the key of every
    directory: those without a final slash that are empty or start with a
    character below the tilde. *)
Definition below_tilde (s : string) : bool :=
  match s with
  | EmptyString => true
  | String c _ => Ascii.ltb c "~"
  end.

Definition sorts_low (s : string) : bool :=
  negb (endswith "/" s) && below_tilde s.

(** What the loop of [complete_path] makes of an entry whose [os.stat]
    gave the mode [st]. *)
Definition completion_of (stat_fn : Z -> bool) (entry : string) (st : Z)
  : list string :=
  if S_ISDIR st then [entry +++ "/"]
  else if stat_fn st then [entry]
  else [].

Module DemoDisk.

(** A directory [/root] with two files, a directory and a socket. *)
Definition disk : Disk :=
  mkDisk (fun pattern =>
            if String.eqb pattern "/root/*"
            then ["/root/b.json"; "/root/backup"; "/root/a.json"; "/root/agent.sock"]
            else if String.eqb pattern "/root/ba*" then ["/root/backup"]
            else if String.eqb pattern "/root/a.*" then ["/root/a.json"]
            else [])
         (fun path =>
            if String.eqb path "/root/backup" then Returned 16877%Z
            else if String.eqb path "/root/agent.sock" then Returned 49645%Z
            else Returned 33188%Z).

End DemoDisk.

(** The shape of the root's children: the first categories, in the order
    in which [UIRoot.refresh] builds them. *)
Definition root_shape (r : Root) : Prop :=
  exists k, map coll_category (children r) = firstn k six_categories.

Module DemoSizes.

(** A text of [n] nines. *)
Fixpoint nines (n : nat) : string :=
  match n with
  | O => EmptyString
  | S k => String "9" (nines k)
  end.

Definition nines_641_digits : all_digits (nines 641) = true :=
  Eval vm_compute in eq_refl.

Definition nines_641_long
  : exceeds_digit_limit 640 (String.length (nines 641)) = true :=
  Eval vm_compute in eq_refl.

End DemoSizes.

(** * Properties *)

(** ** Generic facts *)

Lemma HostStatus_eqb_eq (a b : HostStatus) : HostStatus_eqb a b = true <-> a = b.
Proof.
  destruct a, b; simpl; split; intro H; try congruence; try reflexivity.
  - apply String.eqb_eq in H. now subst.
  - inversion H. apply String.eqb_refl.
Qed.

Lemma HostStatus_eqb_neq (a b : HostStatus) : HostStatus_eqb a b = false <-> a <> b.
Proof.
  rewrite <- HostStatus_eqb_eq. destruct (HostStatus_eqb a b); split; congruence.
Qed.

Lemma mem_false_iff (s : string) (l : list string) : mem s l = false <-> ~ In s l.
Proof.
  unfold mem. split.
  - intros H Hin. assert (existsb (String.eqb s) l = true) as E.
    { apply existsb_exists. exists s. split; [assumption | apply String.eqb_refl]. }
    congruence.
  - intro Hn. destruct (existsb (String.eqb s) l) eqn:E; [| reflexivity].
    apply existsb_exists in E. destruct E as [x [Hx Hs]].
    apply String.eqb_eq in Hs. subst. contradiction.
Qed.

Lemma mutations_app (t u : list Event) : mutations (t ++ u) = mutations t ++ mutations u.
Proof. apply filter_app. Qed.

Lemma log_lines_app (t u : list Event) : log_lines (t ++ u) = log_lines t ++ log_lines u.
Proof. apply filter_app. Qed.

(** Unfolding the monad: one pass exposes the next [match] on what the
    outside answered. *)
Ltac run_monad :=
  repeat (cbv beta iota zeta delta
            [bind ret raise get_self modify_self emit log_info try_except
             subscript0 get_world put_files sleep time_time sdk_call];
          cbn [self world fst snd trace files dirs record_event set_files
               coll_category coll_children api ip children]).

(** ** Refresh of a collection *)

Section CollectionFacts.

Variable env : Env.

Lemma for_each_new_entry (cat c : Category) (w : World) :
  forall (l : list Resource) (pre : list Entry),
    NoDup (map entry_name pre ++ map res_name l) ->
    for_each l (fun r => new_entry cat r (res_name r)) (mkSt (mkCollection c pre) w)
    = (Returned tt, mkSt (mkCollection c (pre ++ map (entry_of cat) l)) w).
Proof.
  induction l as [| r l IH]; intros pre Hnd; simpl.
  - now rewrite app_nil_r.
  - unfold new_entry. run_monad.
    assert (~ In (res_name r) (map entry_name pre)) as Hfresh.
    { simpl in Hnd. apply NoDup_remove_2 in Hnd. intro Hin. apply Hnd.
      apply in_or_app. now left. }
    apply mem_false_iff in Hfresh. unfold mem in Hfresh. rewrite Hfresh.
    rewrite IH.
    + now rewrite <- app_assoc.
    + rewrite map_app. simpl. rewrite <- app_assoc. exact Hnd.
Qed.

Lemma refresh_listed (cat : Category) (old : list Entry) (w : World)
      (l : list Resource) :
  engine env (trace w) (CList cat) = Returned (Some l) ->
  NoDup (map res_name l) ->
  Collection_refresh env (mkSt (mkCollection cat old) w)
  = (Returned tt,
     mkSt (mkCollection cat
             (if Category_eqb cat VMs then [] else map (entry_of cat) l))
          (record_event (ECall (CList cat)) w)).
Proof.
  intros Hl Hnd.
  unfold Collection_refresh. run_monad.
  destruct cat; cbn [Category_eqb];
    unfold UIData_centers_refresh, UIClusters_refresh, UIHosts_refresh,
      UIStorage_domains_refresh, UITemplates_refresh, UIVMs_refresh,
      clear_children; run_monad;
    rewrite Hl; try reflexivity;
    apply (for_each_new_entry _ _ _ l []); exact Hnd.
Qed.

End CollectionFacts.

Ltac distinct_strings :=
  repeat (constructor; [ simpl; intuition discriminate | ]); constructor.




(** ** Look-ups by name *)

Section Lookups.

Variable env : Env.

Lemma find_host_spec (name msg : string) (node : Collection) (w : World) :
  find_host env name msg (mkSt node w)
  = match first_match (engine env (trace w) (CListSearch Hosts ("name=" +++ name))) with
    | Some host =>
        (Returned (Some host),
         mkSt node (record_event (ECall (CListSearch Hosts ("name=" +++ name))) w))
    | None =>
        (Returned None,
         mkSt node (record_event (ELog msg)
                      (record_event (ECall (CListSearch Hosts ("name=" +++ name))) w)))
    end.
Proof.
  unfold find_host. run_monad.
  destruct (engine env (trace w) (CListSearch Hosts ("name=" +++ name)))
    as [[[| x l] |] | e]; reflexivity.
Qed.

Lemma mutations_after_lookup (w : World) (c : Category) (search msg : string) :
  mutations (trace (record_event (ELog msg)
                      (record_event (ECall (CListSearch c search)) w)))
  = mutations (trace w).
Proof.
  cbn [record_event trace]. rewrite !mutations_app. simpl. now rewrite !app_nil_r.
Qed.


End Lookups.

(** C7: a [delete] whose look-up by name has no first match logs that the
    name was not found and returns; besides the look-up itself nothing was
    asked of the engine, so no mutating call was made, and the node and
    its children are what they were.  Data centers and hosts are the two
    collections with a [delete]. *)
Theorem delete_of_unknown_name
        (env : Env) (name : string) (node : Collection) (w : World) :
  (first_match (engine env (trace w) (CListSearch Datacenters ("name=" +++ name))) = None ->
   let result := UIData_centers_ui_command_delete env name (mkSt node w) in
   result
   = (Returned tt,
      mkSt node
        (record_event (ELog ("Data center " +++ name +++ " not found. Check spelling"))
           (record_event (ECall (CListSearch Datacenters ("name=" +++ name))) w)))
   /\ mutations (trace (world (snd result))) = mutations (trace w))
  /\
  (first_match (engine env (trace w) (CListSearch Hosts ("name=" +++ name))) = None ->
   let result := UIHosts_ui_command_delete env name (mkSt node w) in
   result
   = (Returned tt,
      mkSt node
        (record_event (ELog ("Host " +++ name +++ " not found. Check spelling."))
           (record_event (ECall (CListSearch Hosts ("name=" +++ name))) w)))
   /\ mutations (trace (world (snd result))) = mutations (trace w)).
Proof.
  split; intros Hnone result.
  - assert (result
            = (Returned tt,
               mkSt node
                 (record_event (ELog ("Data center " +++ name +++ " not found. Check spelling"))
                    (record_event (ECall (CListSearch Datacenters ("name=" +++ name))) w))))
      as E.
    { subst result. unfold UIData_centers_ui_command_delete. run_monad.
      destruct (engine env (trace w) (CListSearch Datacenters ("name=" +++ name)))
        as [[[| x l] |] | e]; simpl in Hnone; try discriminate Hnone; reflexivity. }
    split; [exact E |]. rewrite E. apply mutations_after_lookup.
  - assert (result
            = (Returned tt,
               mkSt node
                 (record_event (ELog ("Host " +++ name +++ " not found. Check spelling."))
                    (record_event (ECall (CListSearch Hosts ("name=" +++ name))) w))))
      as E.
    { subst result. unfold UIHosts_ui_command_delete.
      unfold bind at 1. rewrite find_host_spec, Hnone. reflexivity. }
    split; [exact E |]. rewrite E. apply mutations_after_lookup.
Qed.

Lemma delete_of_unknown_name_witness :
  UIData_centers_ui_command_delete (Demo.env UP None) "Lab"
    (mkSt (mkCollection Datacenters [entry_of Datacenters (Demo.resource UP "Default")])
          Demo.disk)
  = (Returned tt,
     mkSt (mkCollection Datacenters [entry_of Datacenters (Demo.resource UP "Default")])
       (record_event (ELog "Data center Lab not found. Check spelling")
          (record_event (ECall (CListSearch Datacenters "name=Lab")) Demo.disk)))
  /\
  UIHosts_ui_command_delete (Demo.env UP None) "node9" (mkSt Demo.hosts_node Demo.disk)
  = (Returned tt,
     mkSt Demo.hosts_node
       (record_event (ELog "Host node9 not found. Check spelling.")
          (record_event (ECall (CListSearch Hosts "name=node9")) Demo.disk))).
Proof.
  split.
  - apply (delete_of_unknown_name (Demo.env UP None) "Lab"
             (mkCollection Datacenters [entry_of Datacenters (Demo.resource UP "Default")])
             Demo.disk).
    reflexivity.
  - apply (delete_of_unknown_name (Demo.env UP None) "node9" Demo.hosts_node Demo.disk).
    reflexivity.
Defined.

(** ** The guards of the host life cycle *)

(** C5: when the host is found and its fetched status is not MAINTENANCE,
    [delete] logs that the host must be deactivated first and returns, with
    no call on the engine after the look-up and the node as it was; when
    the status is MAINTENANCE it goes on with [remove] and a refresh; and
    whenever the command made a mutating call, the host had been found in
    MAINTENANCE. *)
Theorem host_delete_needs_maintenance
        (env : Env) (name : string) (node : Collection) (w : World) :
  let lookup := ECall (CListSearch Hosts ("name=" +++ name)) in
  let found := first_match (engine env (trace w) (CListSearch Hosts ("name=" +++ name))) in
  let result := UIHosts_ui_command_delete env name (mkSt node w) in
  (forall host,
      found = Some host -> res_status host <> MAINTENANCE ->
      result
      = (Returned tt,
         mkSt node
           (record_event (ELog "Host is not in Maintenance. Deactivate it first.")
              (record_event lookup w)))
      /\ mutations (trace (world (snd result))) = mutations (trace w))
  /\
  (forall host,
      found = Some host -> res_status host = MAINTENANCE ->
      result
      = (sdk_call env (CRemove Hosts (res_id host)) ;; UIHosts_refresh env)
          (mkSt node (record_event lookup w)))
  /\
  (mutations (trace (world (snd result))) <> mutations (trace w) ->
   exists host, found = Some host /\ res_status host = MAINTENANCE).
Proof.
  intros lookup found result.
  assert (forall host,
             found = Some host -> res_status host <> MAINTENANCE ->
             result
             = (Returned tt,
                mkSt node
                  (record_event (ELog "Host is not in Maintenance. Deactivate it first.")
                     (record_event lookup w)))) as Hguard.
  { intros host Hf Hs. subst result found lookup.
    unfold UIHosts_ui_command_delete. unfold bind at 1.
    rewrite find_host_spec, Hf.
    apply HostStatus_eqb_neq in Hs. rewrite Hs. reflexivity. }
  split; [| split].
  - intros host Hf Hs. split; [now apply Hguard with host |].
    rewrite (Hguard host Hf Hs). apply mutations_after_lookup.
  - intros host Hf Hs. subst result found lookup.
    unfold UIHosts_ui_command_delete. unfold bind at 1.
    rewrite find_host_spec, Hf, Hs. reflexivity.
  - intro Hmut. destruct found as [host |] eqn:Hf.
    + exists host. split; [reflexivity |].
      destruct (HostStatus_eqb (res_status host) MAINTENANCE) eqn:Hs.
      * now apply HostStatus_eqb_eq.
      * exfalso. apply Hmut. apply HostStatus_eqb_neq in Hs.
        rewrite (Hguard host eq_refl Hs). apply mutations_after_lookup.
    + exfalso. apply Hmut. subst result found lookup.
      unfold UIHosts_ui_command_delete. unfold bind at 1.
      rewrite find_host_spec, Hf. apply mutations_after_lookup.
Qed.

Lemma host_delete_needs_maintenance_witness :
  UIHosts_ui_command_delete (Demo.env UP None) "node1" (mkSt Demo.hosts_node Demo.disk)
  = (Returned tt,
     mkSt Demo.hosts_node
       (record_event (ELog "Host is not in Maintenance. Deactivate it first.")
          (record_event (ECall (CListSearch Hosts "name=node1")) Demo.disk)))
  /\
  fst (UIHosts_ui_command_delete (Demo.env MAINTENANCE None) "node1"
         (mkSt Demo.hosts_node Demo.disk)) = Returned tt.
Proof.
  split.
  - apply (host_delete_needs_maintenance (Demo.env UP None) "node1"
             Demo.hosts_node Demo.disk)
      with (host := Demo.resource UP "node1").
    + reflexivity.
    + discriminate.
  - rewrite (proj1 (proj2 (host_delete_needs_maintenance
                             (Demo.env MAINTENANCE None) "node1"
                             Demo.hosts_node Demo.disk))
               (Demo.resource MAINTENANCE "node1") eq_refl eq_refl).
    reflexivity.
Defined.



(** ** Creating a host *)

(** What [UIHosts.ui_command_create] does, for every engine and with any
    fuel for at least one evaluation of the loop condition: the add
    request is sent, and when it returns the command raises on the unbound
    local [elapsed] before the first sleep and the first poll. *)
Lemma host_create_raises
      (env : Env) (fuel : nat) (name address password cluster : string)
      (description : option string) (st : St Collection) :
  let add := CAddHost name (match description with Some d => d | None => "" end)
                      address password cluster in
  UIHosts_ui_command_create env (S fuel) name address password cluster description st
  = (match engine env (trace (world st)) add with
     | Returned _ => Raised (UnboundLocalError "elapsed")
     | Raised e => Raised e
     end,
     mkSt (self st) (record_event (ECall add) (world st))).
Proof.
  intros add. subst add. unfold UIHosts_ui_command_create. run_monad.
  destruct (engine env (trace (world st)) _) as [host | e]; reflexivity.
Qed.

(** C1, at a concrete invocation: the engine accepts the host and would
    answer every later status request; the command raises
    [UnboundLocalError] right after the add request, having slept, polled,
    logged and refreshed nothing. *)
Theorem host_create_never_polls :
  UIHosts_ui_command_create (Demo.env UP None) 200
    "node3" "10.0.0.3" "secret" "Default" None (mkSt Demo.hosts_node Demo.disk)
  = (Raised (UnboundLocalError "elapsed"),
     mkSt Demo.hosts_node
          (mkWorld [ECall (CAddHost "node3" "" "10.0.0.3" "secret" "Default")]
                   (files Demo.disk) (dirs Demo.disk))).
Proof.
  rewrite (host_create_raises (Demo.env UP None) 199). reflexivity.
Qed.

(** ** The root: refresh *)

Section RootFacts.

Variable env : Env.

Lemma for_each_new_entry_frame (cat : Category) :
  forall (l : list Resource) (st : St Collection),
    coll_category
      (self (snd (for_each l (fun r => new_entry cat r (res_name r)) st)))
    = coll_category (self st)
    /\ world (snd (for_each l (fun r => new_entry cat r (res_name r)) st))
       = world st.
Proof.
  induction l as [| r l IH]; intro st; [split; reflexivity |].
  cbn [for_each]. unfold new_entry at 1 3. run_monad.
  destruct (existsb _ _); [split; reflexivity |].
  cbn beta iota.
  destruct (IH (mkSt (mkCollection (coll_category (self st))
                        (coll_children (self st) ++ [mkEntry cat (res_name r) r]))
                     (world st))) as [Hc Hw].
  rewrite Hc, Hw. split; reflexivity.
Qed.

Ltac refresh_like_by_cases :=
  intro st; run_monad;
  match goal with
  | |- context [engine env ?t ?c] =>
      destruct (engine env t c) as [[l |] | e]; try (split; reflexivity)
  end;
  match goal with
  | |- context [for_each ?l (fun r => new_entry ?c r (res_name r)) ?st0] =>
      destruct (for_each_new_entry_frame c l st0) as [Hc Hw]; rewrite Hc, Hw
  end;
  split; reflexivity.

Lemma UIData_centers_refresh_like : refresh_like Datacenters (UIData_centers_refresh env).
Proof. unfold UIData_centers_refresh, clear_children. refresh_like_by_cases. Qed.

Lemma UIClusters_refresh_like : refresh_like Clusters (UIClusters_refresh env).
Proof. unfold UIClusters_refresh, clear_children. refresh_like_by_cases. Qed.

Lemma UIHosts_refresh_like : refresh_like Hosts (UIHosts_refresh env).
Proof. unfold UIHosts_refresh, clear_children. refresh_like_by_cases. Qed.

Lemma UIStorage_domains_refresh_like :
  refresh_like Storagedomains (UIStorage_domains_refresh env).
Proof. unfold UIStorage_domains_refresh, clear_children. refresh_like_by_cases. Qed.

Lemma UITemplates_refresh_like : refresh_like Templates (UITemplates_refresh env).
Proof. unfold UITemplates_refresh, clear_children. refresh_like_by_cases. Qed.

Lemma UIVMs_refresh_like : refresh_like VMs (UIVMs_refresh env).
Proof.
  unfold UIVMs_refresh, clear_children. intro st. run_monad.
  destruct (engine env _ _); split; reflexivity.
Qed.

(** One constructor call under the root, on a root none of whose children
    has the new node's name. *)
Lemma new_collection_run (cat : Category) (rf : M Collection unit)
      (r : Root) (w : World) :
  refresh_like cat rf ->
  mem (category_name cat) (map category_name (map coll_category (children r))) = false ->
  exists (o : Outcome unit) (node : Collection),
    new_collection cat rf (mkSt r w)
    = (o, mkSt (mkRoot (api r) (ip r) (children r ++ [node]))
               (record_event (ECall (CList cat)) w))
    /\ coll_category node = cat
    /\ o = fst (rf (mkSt (mkCollection cat []) w)).
Proof.
  intros Hk Hfresh. unfold new_collection. cbn [self world].
  rewrite map_map in Hfresh. rewrite Hfresh.
  destruct (Hk (mkSt (mkCollection cat []) w)) as [Hc Hw].
  destruct (rf (mkSt (mkCollection cat []) w)) as [o [node w']].
  cbn [self world snd coll_category] in Hc, Hw. subst w'.
  exists o, node. split; [reflexivity | split; [exact Hc | reflexivity]].
Qed.

Lemma class_refresh_returns (cat : Category) (w : World) :
  listings_ok env ->
  fst (class_refresh env cat (mkSt (mkCollection cat []) w)) = Returned tt.
Proof.
  intro Hok. destruct (Hok (trace w) cat) as [l [Hl Hnd]].
  pose proof (refresh_listed env cat [] w l Hl Hnd) as R.
  destruct cat; cbn [class_refresh];
    change (Collection_refresh env (mkSt (mkCollection ?c []) w))
      with (class_refresh env c (mkSt (mkCollection c []) w)) in R;
    cbn [class_refresh] in R; rewrite R; reflexivity.
Qed.

Lemma UIRoot_refresh_no_session (i : option string) (cs : list Collection) (w : World) :
  UIRoot_refresh env (mkSt (mkRoot None i cs) w)
  = (Returned tt, mkSt (mkRoot None i []) w).
Proof. reflexivity. Qed.

(** With a session: the session stays, the old children are gone, and the
    children are the first [k] categories in the order of the source; all
    six when [refresh] returns, which it does when the listings are fine.
    Nothing is logged. *)
Lemma UIRoot_refresh_session (a : Connection) (i : option string)
      (cs : list Collection) (w : World) :
  let r := UIRoot_refresh env (mkSt (mkRoot (Some a) i cs) w) in
  api (self (snd r)) = Some a
  /\ ip (self (snd r)) = i
  /\ (exists k, map coll_category (children (self (snd r))) = firstn k six_categories
                /\ (forall v, fst r = Returned v -> k = 6))
  /\ (listings_ok env -> fst r = Returned tt)
  /\ log_lines (trace (world (snd r))) = log_lines (trace w)
  /\ files (world (snd r)) = files w.
Proof.
  assert (forall (t : list Event) (c : Category),
             log_lines (t ++ [ECall (CList c)]) = log_lines t) as Hlog.
  { intros t c. rewrite log_lines_app. simpl. apply app_nil_r. }
  unfold UIRoot_refresh, UIData_centers_init, UIClusters_init, UIHosts_init,
    UIStorage_domains_init, UITemplates_init, UIVMs_init.
  run_monad.
  destruct (new_collection_run Datacenters (UIData_centers_refresh env)
              (mkRoot (Some a) i [])
              w
              UIData_centers_refresh_like eq_refl)
    as [o1 [n1 [E1 [C1 O1]]]].
  rewrite E1. cbn [api ip children app] in *.
  destruct o1 as [[] | e];
    [| split; [reflexivity | split; [reflexivity | split; [| split; [| split]]]];
       [ exists 1; cbn [self snd fst children map]; rewrite C1;
         split; [reflexivity | discriminate]
       | intro Hok; pose proof (class_refresh_returns Datacenters w Hok) as R;
         cbn [class_refresh] in R; rewrite <- O1 in R; discriminate R
       | cbn [self snd world record_event trace]; rewrite !Hlog; reflexivity
       | reflexivity ]].
  destruct (new_collection_run Clusters (UIClusters_refresh env)
              (mkRoot (Some a) i [n1])
              (record_event (ECall (CList Datacenters)) w)
              UIClusters_refresh_like)
    as [o2 [n2 [E2 [C2 O2]]]]; [cbn [children map]; rewrite C1; reflexivity |].
  rewrite E2. cbn [api ip children app] in *.
  destruct o2 as [[] | e];
    [| split; [reflexivity | split; [reflexivity | split; [| split; [| split]]]];
       [ exists 2; cbn [self snd fst children map]; rewrite C1, C2;
         split; [reflexivity | discriminate]
       | intro Hok; pose proof (class_refresh_returns Clusters (record_event (ECall (CList Datacenters)) w) Hok) as R;
         cbn [class_refresh] in R; rewrite <- O2 in R; discriminate R
       | cbn [self snd world record_event trace]; rewrite !Hlog; reflexivity
       | reflexivity ]].
  destruct (new_collection_run Hosts (UIHosts_refresh env)
              (mkRoot (Some a) i [n1; n2])
              (record_event (ECall (CList Clusters)) (record_event (ECall (CList Datacenters)) w))
              UIHosts_refresh_like)
    as [o3 [n3 [E3 [C3 O3]]]]; [cbn [children map]; rewrite C1, C2; reflexivity |].
  rewrite E3. cbn [api ip children app] in *.
  destruct o3 as [[] | e];
    [| split; [reflexivity | split; [reflexivity | split; [| split; [| split]]]];
       [ exists 3; cbn [self snd fst children map]; rewrite C1, C2, C3;
         split; [reflexivity | discriminate]
       | intro Hok; pose proof (class_refresh_returns Hosts (record_event (ECall (CList Clusters)) (record_event (ECall (CList Datacenters)) w)) Hok) as R;
         cbn [class_refresh] in R; rewrite <- O3 in R; discriminate R
       | cbn [self snd world record_event trace]; rewrite !Hlog; reflexivity
       | reflexivity ]].
  destruct (new_collection_run Storagedomains (UIStorage_domains_refresh env)
              (mkRoot (Some a) i [n1; n2; n3])
              (record_event (ECall (CList Hosts)) (record_event (ECall (CList Clusters)) (record_event (ECall (CList Datacenters)) w)))
              UIStorage_domains_refresh_like)
    as [o4 [n4 [E4 [C4 O4]]]]; [cbn [children map]; rewrite C1, C2, C3; reflexivity |].
  rewrite E4. cbn [api ip children app] in *.
  destruct o4 as [[] | e];
    [| split; [reflexivity | split; [reflexivity | split; [| split; [| split]]]];
       [ exists 4; cbn [self snd fst children map]; rewrite C1, C2, C3, C4;
         split; [reflexivity | discriminate]
       | intro Hok; pose proof (class_refresh_returns Storagedomains (record_event (ECall (CList Hosts)) (record_event (ECall (CList Clusters)) (record_event (ECall (CList Datacenters)) w))) Hok) as R;
         cbn [class_refresh] in R; rewrite <- O4 in R; discriminate R
       | cbn [self snd world record_event trace]; rewrite !Hlog; reflexivity
       | reflexivity ]].
  destruct (new_collection_run Templates (UITemplates_refresh env)
              (mkRoot (Some a) i [n1; n2; n3; n4])
              (record_event (ECall (CList Storagedomains)) (record_event (ECall (CList Hosts)) (record_event (ECall (CList Clusters)) (record_event (ECall (CList Datacenters)) w))))
              UITemplates_refresh_like)
    as [o5 [n5 [E5 [C5 O5]]]]; [cbn [children map]; rewrite C1, C2, C3, C4; reflexivity |].
  rewrite E5. cbn [api ip children app] in *.
  destruct o5 as [[] | e];
    [| split; [reflexivity | split; [reflexivity | split; [| split; [| split]]]];
       [ exists 5; cbn [self snd fst children map]; rewrite C1, C2, C3, C4, C5;
         split; [reflexivity | discriminate]
       | intro Hok; pose proof (class_refresh_returns Templates (record_event (ECall (CList Storagedomains)) (record_event (ECall (CList Hosts)) (record_event (ECall (CList Clusters)) (record_event (ECall (CList Datacenters)) w)))) Hok) as R;
         cbn [class_refresh] in R; rewrite <- O5 in R; discriminate R
       | cbn [self snd world record_event trace]; rewrite !Hlog; reflexivity
       | reflexivity ]].
  destruct (new_collection_run VMs (UIVMs_refresh env)
              (mkRoot (Some a) i [n1; n2; n3; n4; n5])
              (record_event (ECall (CList Templates)) (record_event (ECall (CList Storagedomains)) (record_event (ECall (CList Hosts)) (record_event (ECall (CList Clusters)) (record_event (ECall (CList Datacenters)) w)))))
              UIVMs_refresh_like)
    as [o6 [n6 [E6 [C6 O6]]]]; [cbn [children map]; rewrite C1, C2, C3, C4, C5; reflexivity |].
  rewrite E6. cbn [api ip children app] in *.
  split; [reflexivity | split; [reflexivity | split; [| split; [| split]]]].
  - exists 6. cbn [self snd fst children map]. rewrite C1, C2, C3, C4, C5, C6.
    split; reflexivity.
  - intro Hok. pose proof (class_refresh_returns VMs (record_event (ECall (CList Templates)) (record_event (ECall (CList Storagedomains)) (record_event (ECall (CList Hosts)) (record_event (ECall (CList Clusters)) (record_event (ECall (CList Datacenters)) w))))) Hok) as R.
    cbn [class_refresh] in R. rewrite <- O6 in R. exact R.
  - cbn [self snd world record_event trace]. rewrite !Hlog. reflexivity.
  - reflexivity.
Qed.

Lemma UIRoot_refresh_keeps_session (st : St Root) :
  api (self (snd (UIRoot_refresh env st))) = api (self st)
  /\ ip (self (snd (UIRoot_refresh env st))) = ip (self st).
Proof.
  destruct st as [[[a |] i cs] w].
  - destruct (UIRoot_refresh_session a i cs w) as [Ha [Hi _]]. now split.
  - now rewrite UIRoot_refresh_no_session.
Qed.

Lemma UIRoot_refresh_inv (st : St Root) :
  session_inv (self (snd (UIRoot_refresh env st))).
Proof.
  destruct st as [[[a |] i cs] w].
  - destruct (UIRoot_refresh_session a i cs w) as [Ha _].
    intro Hnone. rewrite Ha in Hnone. discriminate.
  - rewrite UIRoot_refresh_no_session. intros _. reflexivity.
Qed.


End RootFacts.

(** ** The root: its commands, case by case *)

Section RootCommands.

Variable env : Env.

Lemma connect_spec (username password address : string) (r : Root) (w : World) :
  let url := "https://" +++ address +++ "/ovirt-engine/api" in
  let w1 := record_event (ELog ("Connecting to " +++ address +++ "..."))
              (match api r with
               | Some _ => record_event (ELog "Already connected. Disconnect first") w
               | None => w
               end) in
  let conn := mkConnection url username password true (List.length (trace w1)) in
  let w2 := record_event (ECall (CConnection url username password true)) w1 in
  let w3 := record_event (ECall (CTest conn)) w2 in
  UIRoot_ui_command_connect env username password address (mkSt r w)
  = match engine env (trace w1) (CConnection url username password true) with
    | Raised e => (Raised e, mkSt r w2)
    | Returned _ =>
        match engine env (trace w2) (CTest conn) with
        | Raised e => (Raised e, mkSt (mkRoot (Some conn) (ip r) (children r)) w3)
        | Returned false =>
            (Returned None,
             mkSt (mkRoot (Some conn) (ip r) (children r))
                  (record_event (ELog "Failed to test connection to oVirt Engine.") w3))
        | Returned true =>
            (UIRoot_refresh env ;; ret None)
              (mkSt (mkRoot (Some conn) (Some address) (children r))
                    (record_event (ELog "Connected to oVirt Engine.") w3))
        end
    end.
Proof.
  destruct r as [[a |] i cs]; unfold UIRoot_ui_command_connect, sdk_Connection;
    run_monad;
    (destruct (engine env _ (CConnection _ _ _ _)) as [[] | e]; [| reflexivity]);
    (destruct (engine env _ (CTest _)) as [[|] | e]; reflexivity).
Qed.

Lemma disconnect_spec (r : Root) (w : World) :
  UIRoot_ui_command_disconnect env (mkSt r w)
  = match api r with
    | None =>
        UIRoot_refresh env
          (mkSt r (record_event (ELog "Already disconnected from oVirt Engine.") w))
    | Some a =>
        match engine env (trace w) (CClose a) with
        | Raised e => (Raised e, mkSt r (record_event (ECall (CClose a)) w))
        | Returned _ =>
            UIRoot_refresh env
              (mkSt (mkRoot None None (children r))
                    (record_event (ELog "Disconnected from oVirt Engine.")
                       (record_event (ECall (CClose a)) w)))
        end
    end.
Proof.
  destruct r as [[a |] i cs]; unfold UIRoot_ui_command_disconnect; run_monad.
  - destruct (engine env (trace w) (CClose a)) as [[] | e]; reflexivity.
  - reflexivity.
Qed.

(** [saveconfig]: when the expanded path is still the default path, the
    block that rotates the backups is entered and raises at once on the
    name [ignored]; otherwise the block is skipped. *)
Lemma saveconfig_spec (savefile : option string) (st : St Root) :
  let f := expanduser env (match savefile with Some f => f | None => default_save_file end) in
  UIRoot_ui_command_saveconfig env savefile st
  = if String.eqb f default_save_file
    then (Raised (NameError "ignored"), st)
    else (Returned tt,
          mkSt (self st) (record_event (ELog ("Configuration saved to " +++ f)) (world st))).
Proof.
  intro f. subst f. unfold UIRoot_ui_command_saveconfig.
  destruct (String.eqb _ default_save_file).
  - destruct st as [r w]. reflexivity.
  - reflexivity.
Qed.

Lemma restoreconfig_spec (savefile : option string) (clear_existing : bool)
      (st : St Root) :
  let f := expanduser env (match savefile with Some f => f | None => default_save_file end) in
  UIRoot_ui_command_restoreconfig env savefile clear_existing st
  = match assert_admin_attr env with
    | None => (Raised (AttributeError "assert_admin"), st)
    | Some (Raised e) => (Raised e, st)
    | Some (Returned _) =>
        if mem f (files (world st))
        then match UIRoot_refresh env st with
             | (Returned _, st') => (Raised (NameError "errors"), st')
             | (Raised e, st') => (Raised e, st')
             end
        else (Returned tt,
              mkSt (self st)
                   (record_event (ELog ("Restore file " +++ f +++ " not found")) (world st)))
    end.
Proof.
  intro f. subst f. unfold UIRoot_ui_command_restoreconfig, assert_admin.
  destruct (assert_admin_attr env) as [[[] | e] |]; run_monad; try reflexivity.
  destruct (mem _ (files (world st))); cbn [negb]; [| reflexivity].
  run_monad. destruct (UIRoot_refresh env st) as [[[] | e] st']; reflexivity.
Qed.

Lemma saveconfig_keeps_files (savefile : option string) (st : St Root) :
  files (world (snd (UIRoot_ui_command_saveconfig env savefile st))) = files (world st)
  /\ self (snd (UIRoot_ui_command_saveconfig env savefile st)) = self st.
Proof.
  rewrite saveconfig_spec. destruct (String.eqb _ _); split; reflexivity.
Qed.

Lemma saveconfigs_keep_files (savefile : option string) :
  forall (n : nat) (st : St Root),
    files (world (times_in_shell n (UIRoot_ui_command_saveconfig env savefile) st))
    = files (world st).
Proof.
  induction n as [| n IH]; intro st; [reflexivity |].
  cbn [times_in_shell]. rewrite IH. apply saveconfig_keeps_files.
Qed.

(** Every command on the root keeps the invariant. *)
Lemma run_root_command_inv (c : RootCommand) (st : St Root) :
  session_inv (self st) -> session_inv (self (snd (run_root_command env c st))).
Proof.
  intro Hinv. destruct st as [r w]. destruct c; cbn [run_root_command].
  - unfold bind. rewrite connect_spec. cbv zeta.
    destruct (engine env _ (CConnection _ _ _ _)) as [[] | e]; [| exact Hinv].
    destruct (engine env _ (CTest _)) as [[|] | e];
      try (intro Hnone; discriminate Hnone).
    unfold bind.
    match goal with
    | |- context [UIRoot_refresh env ?st0] =>
        pose proof (UIRoot_refresh_keeps_session env st0) as [Ha _];
        destruct (UIRoot_refresh env st0) as [[[] | e] st1]
    end; unfold ret, session_inv; cbn [self snd api] in *;
      intro Hnone; rewrite Ha in Hnone; discriminate.
  - rewrite disconnect_spec. destruct (api r) as [a |].
    + destruct (engine env (trace w) (CClose a)) as [[] | e]; [| exact Hinv].
      apply UIRoot_refresh_inv.
    + apply UIRoot_refresh_inv.
  - apply UIRoot_refresh_inv.
  - destruct (saveconfig_keeps_files savefile (mkSt r w)) as [_ Hs].
    rewrite Hs. exact Hinv.
  - rewrite restoreconfig_spec. cbv zeta.
    destruct (assert_admin_attr env) as [[[] | e] |]; try exact Hinv.
    destruct (mem _ _); [| exact Hinv].
    pose proof (UIRoot_refresh_inv env (mkSt r w)) as Hr.
    destruct (UIRoot_refresh env (mkSt r w)) as [[[] | e] st']; exact Hr.
Qed.

Lemma reachable_inv (r : Root) : reachable env r -> session_inv r.
Proof.
  induction 1 as [| r w c o st' Hr IH Hrun | r w i node c o st' Hr IH Hnth Hrun].
  - intros _. reflexivity.
  - pose proof (run_root_command_inv c (mkSt r w) IH) as Hs.
    rewrite Hrun in Hs. exact Hs.
  - intro Hnone. cbn [api] in Hnone. specialize (IH Hnone).
    rewrite IH in Hnth. destruct i; discriminate Hnth.
Qed.

End RootCommands.

(** ** Connecting and disconnecting *)

(** What [connect] does when a session exists, for every engine: after the
    "Already connected" line it goes on to ask the SDK for a new
    connection, and when that returns the new handle is stored in place of
    the old one. *)
Lemma connect_with_session_goes_on
      (env : Env) (username password address : string)
      (old : Connection) (i : option string) (cs : list Collection) (w : World) :
  let url := "https://" +++ address +++ "/ovirt-engine/api" in
  let asked := trace w ++ [ELog "Already connected. Disconnect first";
                           ELog ("Connecting to " +++ address +++ "...")] in
  engine env asked (CConnection url username password true) = Returned tt ->
  api (self (snd (UIRoot_ui_command_connect env username password address
                    (mkSt (mkRoot (Some old) i cs) w))))
  = Some (mkConnection url username password true (List.length asked)).
Proof.
  intros url asked Hnew. rewrite connect_spec. cbv zeta.
  cbn [api record_event trace files dirs]. fold url.
  rewrite <- !app_assoc. cbn [app]. fold asked. rewrite Hnew.
  destruct (engine env _ (CTest _)) as [[|] | e]; try reflexivity.
  unfold bind.
  match goal with
  | |- context [UIRoot_refresh env ?st0] =>
      pose proof (UIRoot_refresh_keeps_session env st0) as [Ha _];
      destruct (UIRoot_refresh env st0) as [[[] | e] st1]
  end; unfold ret; cbn [self snd api] in *; exact Ha.
Qed.

(** C2, at a concrete invocation: the root holds a session with
    [engine-a]; [connect] to [engine-b] logs "Already connected. Disconnect
    first", then builds a second connection all the same, stores it in
    place of the first and rebuilds the tree. *)
Theorem connect_while_connected_replaces_handle :
  let r := UIRoot_ui_command_connect (Demo.env UP None)
             "admin@internal" "secret" "engine-b"
             (mkSt Demo.connected_root Demo.disk) in
  fst r = Returned None
  /\ api (self (snd r))
     = Some (mkConnection "https://engine-b/ovirt-engine/api"
                          "admin@internal" "secret" true 2)
  /\ api (self (snd r)) <> api Demo.connected_root
  /\ ip (self (snd r)) = Some "engine-b"
  /\ firstn 3 (trace (world (snd r)))
     = [ELog "Already connected. Disconnect first";
        ELog "Connecting to engine-b...";
        ECall (CConnection "https://engine-b/ovirt-engine/api"
                           "admin@internal" "secret" true)].
Proof.
  cbv zeta. unfold Demo.connected_root.
  rewrite (connect_with_session_goes_on (Demo.env UP None)
             "admin@internal" "secret" "engine-b" Demo.old_connection
             (Some "engine-a") [] Demo.disk eq_refl).
  repeat split; try reflexivity. discriminate.
Qed.

(** C8: on a root the shell can reach and that holds no session,
    [disconnect], run any number of times, returns every time, leaves the
    root as it was (no session, no address change, the same children) and
    only adds one "Already disconnected" line per call to the log. *)
Theorem disconnect_without_session
        (env : Env) (r : Root) (w : World) (n : nat) :
  reachable env r ->
  api r = None ->
  times n (UIRoot_ui_command_disconnect env) (mkSt r w)
  = (Returned tt,
     mkSt r (mkWorld (trace w
                      ++ repeat (ELog "Already disconnected from oVirt Engine.") n)
                     (files w) (dirs w))).
Proof.
  intros Hreach Hnone.
  pose proof (reachable_inv env r Hreach Hnone) as Hchildren.
  destruct r as [a i cs]. cbn [api children] in Hnone, Hchildren. subst a cs.
  revert w. induction n as [| n IH]; intro w.
  - cbn [times repeat]. rewrite app_nil_r. destruct w. reflexivity.
  - cbn [times]. unfold bind at 1. rewrite disconnect_spec. cbn [api].
    rewrite UIRoot_refresh_no_session. rewrite IH.
    cbn [record_event trace files dirs repeat]. rewrite <- app_assoc. reflexivity.
Qed.

Lemma disconnect_without_session_witness :
  times 3 (UIRoot_ui_command_disconnect (Demo.env UP None))
        (mkSt UIRoot_init Demo.disk)
  = (Returned tt,
     mkSt UIRoot_init
          (mkWorld [ELog "Already disconnected from oVirt Engine.";
                    ELog "Already disconnected from oVirt Engine.";
                    ELog "Already disconnected from oVirt Engine."]
                   (files Demo.disk) (dirs Demo.disk))).
Proof.
  apply (disconnect_without_session (Demo.env UP None) UIRoot_init Demo.disk 3).
  - apply reach_init.
  - reflexivity.
Defined.

(** ** Saving and restoring the configuration *)

(** C3, at a concrete run: the home directory is [/root], the save file
    exists and [/root/backup] is an empty directory; eleven [saveconfig]
    with the default path each return after the single line "Configuration
    saved to /root/ovirtlcli.json", and no backup was copied.  Started on a
    directory that holds eleven backups, the same eleven calls delete
    none. *)
Theorem saveconfig_makes_no_backup :
  let save := UIRoot_ui_command_saveconfig (Demo.env UP None) None in
  save (mkSt UIRoot_init Demo.disk)
  = (Returned tt,
     mkSt UIRoot_init
          (record_event (ELog "Configuration saved to /root/ovirtlcli.json") Demo.disk))
  /\ glob_json "/root/backup"
       (files (world (times_in_shell 11 save (mkSt UIRoot_init Demo.disk)))) = []
  /\ List.length
       (glob_json "/root/backup"
          (files (world (times_in_shell 11 save
                           (mkSt UIRoot_init Demo.disk_with_backups))))) = 11.
Proof.
  cbv zeta. split; [reflexivity |].
  rewrite !saveconfigs_keep_files. split; reflexivity.
Qed.




(** What [restoreconfig] would do past its first statement, whatever
    [assert_admin] is taken to do: on a save file that exists it always
    raises, and logs nothing before it does; with [assert_admin] passed
    and the tree refreshed, the error is the NameError on [errors], which
    the function reads and never assigns.  When the file does not exist
    (and [assert_admin] passed) the command logs "Restore file ... not
    found" and returns; and whenever the command returns, the file did not
    exist. *)
Lemma restoreconfig_never_restores
        (env : Env) (savefile : option string) (clear_existing : bool)
        (st : St Root) :
  let f := expanduser env (match savefile with
                           | Some f => f
                           | None => default_save_file
                           end) in
  let result := UIRoot_ui_command_restoreconfig env savefile clear_existing st in
  (mem f (files (world st)) = true ->
   (exists e, fst result = Raised e)
   /\ log_lines (trace (world (snd result))) = log_lines (trace (world st))
   /\ (assert_admin_attr env = Some (Returned tt) ->
       fst (UIRoot_refresh env st) = Returned tt ->
       fst result = Raised (NameError "errors")))
  /\
  (mem f (files (world st)) = false ->
   assert_admin_attr env = Some (Returned tt) ->
   result
   = (Returned tt,
      mkSt (self st)
           (record_event (ELog ("Restore file " +++ f +++ " not found")) (world st))))
  /\
  (forall v, fst result = Returned v -> mem f (files (world st)) = false).
Proof.
  intros f result. subst result. rewrite restoreconfig_spec. fold f.
  assert (log_lines (trace (world (snd (UIRoot_refresh env st))))
          = log_lines (trace (world st))) as Hlog.
  { destruct st as [[[a |] i cs] w].
    - destruct (UIRoot_refresh_session env a i cs w) as [_ [_ [_ [_ [Hl _]]]]].
      exact Hl.
    - rewrite UIRoot_refresh_no_session. reflexivity. }
  split; [| split].
  - intro Hexists. rewrite Hexists.
    destruct (assert_admin_attr env) as [[[] | e] |].
    + destruct (UIRoot_refresh env st) as [[[] | e] st']; cbn [fst snd] in *;
        (split; [eexists; reflexivity | split; [exact Hlog |]]).
      * intros _ _. reflexivity.
      * intros _ H. discriminate H.
    + split; [eexists; reflexivity | split; [reflexivity |]].
      intro H. discriminate H.
    + split; [eexists; reflexivity | split; [reflexivity |]].
      intro H. discriminate H.
  - intros Hmissing Hadmin. rewrite Hadmin, Hmissing. reflexivity.
  - intros v Hret.
    destruct (assert_admin_attr env) as [[[] | e] |]; try discriminate Hret.
    destruct (mem f (files (world st))); [| reflexivity].
    destruct (UIRoot_refresh env st) as [[[] | e] st']; discriminate Hret.
Qed.

(** [restoreconfig] as the repository has it.  No class under it defines
    [assert_admin], so the first statement of the command ends in an
    AttributeError: the command raises before it expands the path, looks
    for the file, logs or refreshes, and leaves everything as it was. *)
Lemma restoreconfig_without_assert_admin
      (env : Env) (savefile : option string) (clear_existing : bool)
      (st : St Root) :
  assert_admin_attr env = None ->
  UIRoot_ui_command_restoreconfig env savefile clear_existing st
  = (Raised (AttributeError "assert_admin"), st).
Proof.
  intro Hnone. rewrite restoreconfig_spec. cbv zeta. now rewrite Hnone.
Qed.

(** C10, at two concrete calls on a connected root: with a path that
    names no file, and with the default path, whose file exists.  Both
    raise the AttributeError of the missing [assert_admin] and change
    nothing: the first does not get to log "Restore file ... not found"
    and return, the second does not get to the read of [errors]. *)
Theorem restoreconfig_stops_at_assert_admin :
  mem "/root/other.json" (files Demo.disk) = false
  /\ UIRoot_ui_command_restoreconfig (Demo.env UP None)
       (Some "/root/other.json") false (mkSt Demo.connected_root Demo.disk)
     = (Raised (AttributeError "assert_admin"),
        mkSt Demo.connected_root Demo.disk)
  /\ mem (expanduser (Demo.env UP None) default_save_file) (files Demo.disk) = true
  /\ UIRoot_ui_command_restoreconfig (Demo.env UP None)
       None false (mkSt Demo.connected_root Demo.disk)
     = (Raised (AttributeError "assert_admin"),
        mkSt Demo.connected_root Demo.disk).
Proof.
  split; [reflexivity | split; [| split; [reflexivity |]]];
    apply restoreconfig_without_assert_admin; reflexivity.
Qed.

(** * Further properties *)

(** ** Sizes *)

Lemma append_empty (s : string) : s +++ "" = s.
Proof. induction s as [| c s IH]; simpl; [reflexivity | now rewrite IH]. Qed.

(** A digit is none of the characters the helpers treat specially. *)
Lemma digit_is_plain (c : ascii) :
  is_digit c = true ->
  Ascii.eqb c "i" = false
  /\ lower_char c = c
  /\ existsb (Ascii.eqb c) ["i"; "b"]%char = false
  /\ is_space c = false
  /\ list_index c units = None.
Proof.
  destruct c as [[] [] [] [] [] [] [] []]; vm_compute; intro H;
    try discriminate H; repeat split.
Qed.

Lemma all_digits_cons (c : ascii) (d : string) :
  all_digits (String c d) = true -> is_digit c = true /\ all_digits d = true.
Proof. simpl. intro H. now apply andb_prop in H. Qed.

Lemma remove_i_digits (ds x : string) :
  all_digits ds = true -> remove_i (ds +++ x) = ds +++ remove_i x.
Proof.
  induction ds as [| c d IH]; intro H; [reflexivity |].
  apply all_digits_cons in H. destruct H as [Hc Hd].
  simpl. destruct (digit_is_plain c Hc) as [Hi _]. rewrite Hi.
  now rewrite (IH Hd).
Qed.

Lemma lower_digits (ds x : string) :
  all_digits ds = true -> lower (ds +++ x) = ds +++ lower x.
Proof.
  induction ds as [| c d IH]; intro H; [reflexivity |].
  apply all_digits_cons in H. destruct H as [Hc Hd].
  simpl. destruct (digit_is_plain c Hc) as [_ [Hl _]]. rewrite Hl.
  now rewrite (IH Hd).
Qed.

Lemma skip_digits_app (ds x : string) :
  all_digits ds = true -> skip_digits (ds +++ x) = skip_digits x.
Proof.
  induction ds as [| c d IH]; intro H; [reflexivity |].
  apply all_digits_cons in H. destruct H as [Hc Hd].
  simpl. rewrite Hc. exact (IH Hd).
Qed.

Lemma size_format_digits (ds x : string) :
  all_digits ds = true -> ds <> "" ->
  size_format (ds +++ x) = unit_b_end (skip_digits x).
Proof.
  intros Hd Hne. destruct ds as [| c d]; [contradiction |].
  pose proof (skip_digits_app (String c d) x Hd) as Hskip.
  apply all_digits_cons in Hd. destruct Hd as [Hc _].
  unfold size_format. rewrite Hskip. cbn [append]. now rewrite Hc.
Qed.

Lemma rstrip_digits (ds x : string) :
  all_digits ds = true ->
  rstrip ["i"; "b"]%char (ds +++ x) = ds +++ rstrip ["i"; "b"]%char x.
Proof.
  induction ds as [| c d IH]; intro H; [reflexivity |].
  apply all_digits_cons in H. destruct H as [Hc Hd].
  cbn [append rstrip]. rewrite (IH Hd).
  destruct (digit_is_plain c Hc) as [_ [_ [Hib _]]].
  destruct (d +++ rstrip ["i"; "b"]%char x); [rewrite Hib |]; reflexivity.
Qed.

Lemma rstrip_space_digits (ds : string) :
  all_digits ds = true -> rstrip_space ds = ds.
Proof.
  induction ds as [| c d IH]; intro H; [reflexivity |].
  apply all_digits_cons in H. destruct H as [Hc Hd].
  cbn [rstrip_space]. rewrite (IH Hd).
  destruct (digit_is_plain c Hc) as [_ [_ [_ [Hs _]]]].
  destruct d; [rewrite Hs |]; reflexivity.
Qed.

Lemma leading_digits_all (ds : string) :
  all_digits ds = true -> leading_digits ds = String.length ds.
Proof.
  induction ds as [| c d IH]; intro H; [reflexivity |].
  apply all_digits_cons in H. destruct H as [Hc Hd].
  simpl. rewrite Hc. now rewrite (IH Hd).
Qed.

Lemma leading_digits_app_bar (ds : string) :
  all_digits ds = true -> leading_digits (ds +++ "|") = String.length ds.
Proof.
  induction ds as [| c d IH]; intro H; [reflexivity |].
  apply all_digits_cons in H. destruct H as [Hc Hd].
  simpl. rewrite Hc. now rewrite (IH Hd).
Qed.

Lemma lstrip_space_digits (ds x : string) :
  all_digits ds = true -> ds <> "" -> lstrip_space (ds +++ x) = ds +++ x.
Proof.
  intros Hd Hne. destruct ds as [| c d]; [contradiction |].
  apply all_digits_cons in Hd. destruct Hd as [Hc _].
  destruct (digit_is_plain c Hc) as [_ [_ [_ [Hs _]]]].
  simpl. now rewrite Hs.
Qed.

(** [int] on a text of digits: its number, unless the text is longer
    than the limit allows. *)
Lemma py_int_digits (limit : nat) (ds : string) :
  all_digits ds = true -> ds <> "" ->
  (exceeds_digit_limit limit (String.length ds) = false ->
   py_int limit ds = Returned (digits_value 0 ds))
  /\ (exceeds_digit_limit limit (String.length ds) = true ->
      exists msg, py_int limit ds = Raised (ValueError msg)).
Proof.
  intros Hd Hne. unfold py_int.
  pose proof (lstrip_space_digits ds "" Hd Hne) as Hl.
  rewrite append_empty in Hl.
  rewrite Hl, (rstrip_space_digits ds Hd), (leading_digits_all ds Hd), Hd.
  split; intro H; rewrite H.
  - destruct ds; [contradiction | reflexivity].
  - eexists. reflexivity.
Qed.

Lemma last_char_digits (ds : string) :
  all_digits ds = true -> ds <> "" ->
  exists c, last_char ds = Some c /\ list_index c units = None.
Proof.
  induction ds as [| c d IH]; intros H Hne; [contradiction |].
  apply all_digits_cons in H. destruct H as [Hc Hd].
  destruct d as [| c' d'].
  - exists c. split; [reflexivity |].
    now destruct (digit_is_plain c Hc) as [_ [_ [_ [_ Hu]]]].
  - destruct (IH Hd) as [x [Hx Hu]]; [discriminate |].
    exists x. split; [exact Hx | exact Hu].
Qed.

Lemma last_char_snoc (s : string) (c : ascii) :
  last_char (s +++ String c "") = Some c.
Proof.
  induction s as [| a s IH]; [reflexivity |].
  cbn [append last_char]. rewrite IH.
  destruct (s +++ String c "") eqn:E; [| reflexivity].
  destruct s; discriminate E.
Qed.

Lemma drop_last_snoc (s : string) (c : ascii) :
  drop_last (s +++ String c "") = s.
Proof.
  induction s as [| a s IH]; [reflexivity |].
  cbn [append drop_last]. rewrite IH.
  destruct (s +++ String c "") eqn:E; [| reflexivity].
  destruct s; discriminate E.
Qed.

(** [human_to_bytes] once the format check and the stripping of the
    suffix are done: digits, then nothing or one unit letter. *)
Lemma human_to_bytes_after_format (limit : nat) (ds hsize : string) (kilo : Z)
      (tail : string) (p : nat) :
  all_digits ds = true -> ds <> "" ->
  In (tail, p) [("", 0); ("k", 1); ("m", 2); ("g", 3); ("t", 4)] ->
  size_format (lower (remove_i hsize)) = true ->
  rstrip ["i"; "b"]%char (lower (remove_i hsize)) = ds +++ tail ->
  human_to_bytes limit hsize kilo
  = match py_int limit ds with
    | Returned n => Returned (n * kilo ^ Z.of_nat p)%Z
    | Raised e => Raised e
    end.
Proof.
  intros Hd Hne Hin Hfmt Hstrip.
  unfold human_to_bytes. rewrite Hfmt, Hstrip. cbn [negb].
  simpl in Hin.
  destruct Hin as [E | [E | [E | [E | [E | []]]]]]; inversion E; subst tail p.
  - rewrite append_empty.
    destruct (last_char_digits ds Hd Hne) as [c [Hc Hu]].
    rewrite Hc, Hu. reflexivity.
  - rewrite last_char_snoc, drop_last_snoc. reflexivity.
  - rewrite last_char_snoc, drop_last_snoc. reflexivity.
  - rewrite last_char_snoc, drop_last_snoc. reflexivity.
  - rewrite last_char_snoc, drop_last_snoc. reflexivity.
Qed.

Ltac by_format limit ds kilo Hd Hne :=
  match goal with
  | |- human_to_bytes limit (ds +++ ?suffix) kilo = _ =>
      apply (human_to_bytes_after_format limit ds (ds +++ suffix) kilo
               (rstrip ["i"; "b"]%char (lower (remove_i suffix))) _ Hd Hne);
      [ simpl; auto 10
      | rewrite (remove_i_digits ds _ Hd), (lower_digits ds _ Hd),
          (size_format_digits ds _ Hd Hne); reflexivity
      | rewrite (remove_i_digits ds _ Hd), (lower_digits ds _ Hd),
          (rstrip_digits ds _ Hd); reflexivity ]
  end.

(** X1: a size written as digits, an optional unit letter in either case,
    an optional [i] and an optional [b] or [B] is read as the number times
    [kilo] to the power of the unit: 1 for k, 2 for m, 3 for g, 4 for t,
    0 without a unit.  That is so as long as the interpreter's limit on
    the digits of [int] lets the digits through (always, without a limit
    or up to 640 digits); a longer text ends in the ValueError of
    [int]. *)
Theorem human_to_bytes_value
        (max_str_digits : nat) (ds : string) (kilo : Z)
        (u i b : string) (p : nat) :
  all_digits ds = true -> ds <> "" ->
  In (u, p) [("", 0); ("k", 1); ("K", 1); ("m", 2); ("M", 2);
             ("g", 3); ("G", 3); ("t", 4); ("T", 4)] ->
  In i [""; "i"] ->
  In b [""; "b"; "B"] ->
  (exceeds_digit_limit max_str_digits (String.length ds) = false ->
   human_to_bytes max_str_digits (ds +++ u +++ i +++ b) kilo
   = Returned (digits_value 0 ds * kilo ^ Z.of_nat p)%Z)
  /\
  (exceeds_digit_limit max_str_digits (String.length ds) = true ->
   exists msg,
     human_to_bytes max_str_digits (ds +++ u +++ i +++ b) kilo
     = Raised (ValueError msg)).
Proof.
  intros Hd Hne Hu Hi Hb.
  assert (human_to_bytes max_str_digits (ds +++ u +++ i +++ b) kilo
          = match py_int max_str_digits ds with
            | Returned n => Returned (n * kilo ^ Z.of_nat p)%Z
            | Raised e => Raised e
            end) as E.
  { simpl in Hu, Hi, Hb.
    destruct Hi as [Ei | [Ei | []]]; subst i;
      destruct Hb as [Eb | [Eb | [Eb | []]]]; subst b;
      destruct Hu as [E | [E | [E | [E | [E | [E | [E | [E | [E | []]]]]]]]]];
      inversion E; subst u p; cbn [append]; by_format max_str_digits ds kilo Hd Hne. }
  rewrite E. destruct (py_int_digits max_str_digits ds Hd Hne) as [Hok Hlong].
  split; intro H.
  - now rewrite (Hok H).
  - destruct (Hlong H) as [msg Hmsg]. exists msg. now rewrite Hmsg.
Qed.

Lemma human_to_bytes_value_witness :
  human_to_bytes 4300 "10KiB" 1024 = Returned 10240%Z
  /\ human_to_bytes 0 "3g" 1000 = Returned 3000000000%Z
  /\ exists msg,
       human_to_bytes 640 (DemoSizes.nines 641 +++ "k") 1024 = Raised (ValueError msg).
Proof.
  split; [| split].
  - exact (proj1 (human_to_bytes_value 4300 "10" 1024 "K" "i" "B" 1 eq_refl
                    ltac:(discriminate) ltac:(simpl; auto 10)
                    ltac:(simpl; auto) ltac:(simpl; auto)) eq_refl).
  - exact (proj1 (human_to_bytes_value 0 "3" 1000 "g" "" "" 3 eq_refl
                    ltac:(discriminate) ltac:(simpl; auto 10)
                    ltac:(simpl; auto) ltac:(simpl; auto)) eq_refl).
  - exact (proj2 (human_to_bytes_value 640 (DemoSizes.nines 641) 1024 "k" "" "" 1
                    DemoSizes.nines_641_digits
                    ltac:(discriminate) ltac:(simpl; auto 10)
                    ltac:(simpl; auto) ltac:(simpl; auto))
             DemoSizes.nines_641_long).
Defined.

Lemma all_digits_app (ds x : string) :
  all_digits (ds +++ x) = all_digits ds && all_digits x.
Proof.
  induction ds as [| c d IH]; [reflexivity |].
  simpl. rewrite IH. now rewrite andb_assoc.
Qed.

Lemma rstrip_space_digits_app (ds x : string) :
  all_digits ds = true -> rstrip_space (ds +++ x) = ds +++ rstrip_space x.
Proof.
  induction ds as [| c d IH]; intro H; [reflexivity |].
  apply all_digits_cons in H. destruct H as [Hc Hd].
  cbn [append rstrip_space]. rewrite (IH Hd).
  destruct (digit_is_plain c Hc) as [_ [_ [_ [Hs _]]]].
  destruct (d +++ rstrip_space x); [rewrite Hs |]; reflexivity.
Qed.

(** X2: the bars of the class [[k|m|g|t]] are characters of the class:
    digits followed by a bar pass the format check, the bar is no unit, and
    the command ends in the ValueError of [int] on the text with its
    bar. *)
Theorem human_to_bytes_bar
        (max_str_digits : nat) (ds : string) (kilo : Z) (b : string) :
  all_digits ds = true -> ds <> "" ->
  In b [""; "b"; "B"] ->
  size_format (lower (remove_i (ds +++ "|" +++ b))) = true
  /\ exists msg,
       human_to_bytes max_str_digits (ds +++ "|" +++ b) kilo = Raised (ValueError msg).
Proof.
  intros Hd Hne Hb.
  assert (exists msg, py_int max_str_digits (ds +++ "|") = Raised (ValueError msg))
    as [msg Hint].
  { unfold py_int.
    rewrite (lstrip_space_digits ds "|" Hd Hne), (rstrip_space_digits_app ds _ Hd).
    replace (rstrip_space "|") with "|" by reflexivity.
    destruct (exceeds_digit_limit _ _); [eexists; reflexivity |].
    rewrite all_digits_app, Hd.
    destruct ds as [| c d]; [contradiction | eexists; reflexivity]. }
  simpl in Hb. destruct Hb as [E | [E | [E | []]]]; subst b; cbn [append];
    (split;
     [ rewrite (remove_i_digits ds _ Hd), (lower_digits ds _ Hd),
         (size_format_digits ds _ Hd Hne); reflexivity
     | exists msg; unfold human_to_bytes;
       rewrite (remove_i_digits ds _ Hd), (lower_digits ds _ Hd),
         (size_format_digits ds _ Hd Hne), (rstrip_digits ds _ Hd);
       simpl (negb _); cbv iota;
       change (rstrip ["i"; "b"]%char (lower (remove_i ?x))) with "|";
       simpl (rstrip _ _);
       rewrite last_char_snoc; simpl (list_index _ _); cbv iota;
       rewrite Hint; reflexivity ]).
Qed.

Lemma human_to_bytes_bar_witness :
  exists msg, human_to_bytes 4300 "12|b" 1024 = Raised (ValueError msg).
Proof.
  exact (proj2 (human_to_bytes_bar 4300 "12" 1024 "b" eq_refl
                  ltac:(discriminate) ltac:(simpl; auto))).
Defined.

(** X3: a capital [I] is not dropped by [replace('i', '')] and becomes an
    [i] only afterwards, so [10KIB] and the like fail the format check that
    [10KiB] passes; the refusal is a NameError, as the class the source
    wants to raise is not bound in the module. *)
Theorem human_to_bytes_capital_i
        (max_str_digits : nat) (ds : string) (kilo : Z) (u x : string) :
  all_digits ds = true -> ds <> "" ->
  In u [""; "k"; "K"; "m"; "M"; "g"; "G"; "t"; "T"] ->
  In x ["I"; "IB"; "Ib"] ->
  human_to_bytes max_str_digits (ds +++ u +++ x) kilo
  = Raised (NameError "RTSLibError").
Proof.
  intros Hd Hne Hu Hx. simpl in Hu, Hx.
  destruct Hx as [E | [E | [E | []]]]; subst x;
    destruct Hu as [E | [E | [E | [E | [E | [E | [E | [E | [E | []]]]]]]]]];
    subst u; cbn [append]; unfold human_to_bytes;
    rewrite (remove_i_digits ds _ Hd), (lower_digits ds _ Hd),
      (size_format_digits ds _ Hd Hne); reflexivity.
Qed.

Lemma human_to_bytes_capital_i_witness :
  human_to_bytes 4300 "10KIB" 1024 = Raised (NameError "RTSLibError").
Proof.
  exact (human_to_bytes_capital_i 4300 "10" 1024 "K" "IB" eq_refl
           ltac:(discriminate) ltac:(simpl; auto 10) ltac:(simpl; auto)).
Defined.

Lemma remove_i_insert (s1 s2 : string) :
  remove_i (s1 +++ "i" +++ s2) = remove_i (s1 +++ s2).
Proof.
  induction s1 as [| c s IH]; [reflexivity |].
  cbn [append remove_i] in *. rewrite IH. reflexivity.
Qed.

(** X4: a small [i] counts for nothing wherever it stands: putting one
    anywhere into the text changes neither the value nor the error. *)
Theorem human_to_bytes_ignores_i
        (max_str_digits : nat) (s1 s2 : string) (kilo : Z) :
  human_to_bytes max_str_digits (s1 +++ "i" +++ s2) kilo
  = human_to_bytes max_str_digits (s1 +++ s2) kilo.
Proof.
  unfold human_to_bytes. rewrite remove_i_insert. reflexivity.
Qed.

Lemma mem_false_iff_neg (s : string) (l : list string) : In s l -> mem s l = true.
Proof.
  intro Hin. destruct (mem s l) eqn:E; [reflexivity |].
  apply mem_false_iff in E. contradiction.
Qed.

(** ** The yes/no parameter type *)

(** X5: [ui_type_yesno] takes exactly the two texts [Yes] and [No], in
    that spelling, and gives them back unchanged; any other text is a
    ValueError.  With [reverse] set it never raises, and it maps every
    text the forward direction accepted to itself. *)
Theorem ui_type_yesno_accepts (v : string) (enum : bool) :
  (In v ["Yes"; "No"] ->
   ui_type_yesno (Some v) enum false = Returned (YesNoText v))
  /\ (~ In v ["Yes"; "No"] ->
      ui_type_yesno (Some v) enum false
      = Raised (ValueError ("Syntax error, '" +++ v +++ "' is not Yes|No.")))
  /\ (forall value, exists text,
         ui_type_yesno value enum true = Returned (YesNoText text))
  /\ (forall out,
         ui_type_yesno (Some v) enum false = Returned out ->
         ui_type_yesno (Some v) enum true = Returned out).
Proof.
  unfold ui_type_yesno. cbn [negb].
  split; [| split; [| split]].
  - intro Hin. apply mem_false_iff_neg in Hin. now rewrite Hin.
  - intro Hout. apply mem_false_iff in Hout. now rewrite Hout.
  - intros [text |]; eexists; reflexivity.
  - intros out. destruct (mem v ["Yes"; "No"]); intro H; [exact H | discriminate H].
Qed.

Lemma ui_type_yesno_accepts_witness :
  ui_type_yesno (Some "No") false false = Returned (YesNoText "No")
  /\ ui_type_yesno (Some "yes") false false
     = Raised (ValueError "Syntax error, 'yes' is not Yes|No.").
Proof.
  split.
  - apply (ui_type_yesno_accepts "No" false). simpl. auto.
  - apply (ui_type_yesno_accepts "yes" false). simpl. intuition discriminate.
Defined.

(** ** Summaries *)

Lemma count_up_filter (hosts : list Resource) :
  forall up, count_up hosts up = up + List.length (filter is_up hosts).
Proof.
  induction hosts as [| host rest IH]; intro up; cbn [count_up filter].
  - now rewrite Nat.add_0_r.
  - rewrite IH. unfold is_up at 2.
    destruct (HostStatus_eqb (res_status host) UP); cbn [List.length].
    + now rewrite <- Nat.add_assoc.
    + reflexivity.
Qed.

(** X6: the summary of the hosts asks the engine for the list itself (it
    does not read the node's children, and leaves them alone) and reports
    the length of that list and the number of its hosts whose status is
    UP, which is at most the length. *)
Theorem hosts_summary_counts
        (env : Env) (node : Collection) (w : World) (l : list Resource) :
  engine env (trace w) (CList Hosts) = Returned (Some l) ->
  UIHosts_summary env (mkSt node w)
  = (Returned (str_of_nat (List.length l) +++ " hosts ("
               +++ str_of_nat (List.length (filter is_up l)) +++ " UP)", None),
     mkSt node (record_event (ECall (CList Hosts)) w))
  /\ List.length (filter is_up l) <= List.length l.
Proof.
  intro Hl. split; [| apply filter_length_le].
  unfold UIHosts_summary. run_monad. rewrite Hl.
  rewrite count_up_filter. reflexivity.
Qed.

Lemma hosts_summary_counts_witness :
  fst (UIHosts_summary (Demo.env MAINTENANCE None) (mkSt Demo.hosts_node Demo.disk))
  = Returned ("2 hosts (0 UP)", None).
Proof.
  rewrite (proj1 (hosts_summary_counts (Demo.env MAINTENANCE None)
                    Demo.hosts_node Demo.disk
                    (map (Demo.resource MAINTENANCE) (Demo.inventory Hosts))
                    eq_refl)).
  reflexivity.
Defined.



(** X8: when the listing gives [None], the summary of the hosts returns
    "no hosts" and every other summary raises the TypeError of
    [len(None)]; the node is left as it was. *)
Theorem summary_of_none (env : Env) (cat : Category) (old : list Entry) (w : World) :
  engine env (trace w) (CList cat) = Returned None ->
  Collection_summary env (mkSt (mkCollection cat old) w)
  = (if Category_eqb cat Hosts then Returned ("no hosts", None) else Raised TypeError,
     mkSt (mkCollection cat old) (record_event (ECall (CList cat)) w)).
Proof.
  intro Hnone. unfold Collection_summary. run_monad.
  destruct cat; cbn [Category_eqb];
    unfold UIData_centers_summary, UIClusters_summary, UIStorage_domains_summary,
      UIHosts_summary, UITemplates_summary, UIVMs_summary, py_len; run_monad;
    rewrite Hnone; reflexivity.
Qed.

(** X14: a [refresh] whose listing raises leaves the collection empty, not
    with the children it had, and passes the error on; a listing that
    gives [None] leaves it empty too, and returns, except for the
    templates, whose [refresh] iterates [None] and ends in a TypeError. *)
Theorem refresh_failure_empties
        (env : Env) (cat : Category) (old : list Entry) (w : World) :
  (forall e,
      engine env (trace w) (CList cat) = Raised e ->
      Collection_refresh env (mkSt (mkCollection cat old) w)
      = (Raised e, mkSt (mkCollection cat []) (record_event (ECall (CList cat)) w)))
  /\
  (engine env (trace w) (CList cat) = Returned None ->
   Collection_refresh env (mkSt (mkCollection cat old) w)
   = (if Category_eqb cat Templates then Raised TypeError else Returned tt,
      mkSt (mkCollection cat []) (record_event (ECall (CList cat)) w))).
Proof.
  split; [intros e H | intro H];
    unfold Collection_refresh; run_monad;
    destruct cat; cbn [Category_eqb];
    unfold UIData_centers_refresh, UIClusters_refresh, UIHosts_refresh,
      UIStorage_domains_refresh, UITemplates_refresh, UIVMs_refresh,
      clear_children; run_monad;
    rewrite H; reflexivity.
Qed.

Lemma summary_of_none_witness :
  fst (Collection_summary DemoNone.env (mkSt Demo.hosts_node Demo.disk))
  = Returned ("no hosts", None)
  /\ fst (Collection_summary DemoNone.env (mkSt (mkCollection Clusters []) Demo.disk))
     = Raised TypeError.
Proof.
  split.
  - unfold Demo.hosts_node.
    rewrite (summary_of_none DemoNone.env Hosts _ Demo.disk eq_refl). reflexivity.
  - rewrite (summary_of_none DemoNone.env Clusters [] Demo.disk eq_refl). reflexivity.
Defined.

Lemma refresh_failure_empties_witness :
  Collection_refresh DemoNone.env (mkSt Demo.hosts_node Demo.disk)
  = (Returned tt,
     mkSt (mkCollection Hosts []) (record_event (ECall (CList Hosts)) Demo.disk))
  /\ fst (Collection_refresh DemoNone.env (mkSt (mkCollection Templates []) Demo.disk))
     = Raised TypeError.
Proof.
  split.
  - unfold Demo.hosts_node.
    rewrite (proj2 (refresh_failure_empties DemoNone.env Hosts _ Demo.disk) eq_refl).
    reflexivity.
  - rewrite (proj2 (refresh_failure_empties DemoNone.env Templates [] Demo.disk) eq_refl).
    reflexivity.
Defined.

(** ** Sessions *)

(** X9: the two ways [connect] can fail, on a root without a session.
    When the SDK refuses to build the connection the error is passed on
    and the root is as it was.  When the connection is built and its test
    answers [False], the command logs the failure and returns with the
    handle kept: the root counts as connected, while its address and its
    children are not touched and nothing was listed. *)
Theorem connect_failures
        (env : Env) (username password address : string)
        (i : option string) (cs : list Collection) (w : World) :
  let url := "https://" +++ address +++ "/ovirt-engine/api" in
  let w1 := record_event (ELog ("Connecting to " +++ address +++ "...")) w in
  let w2 := record_event (ECall (CConnection url username password true)) w1 in
  let conn := mkConnection url username password true (List.length (trace w1)) in
  let result := UIRoot_ui_command_connect env username password address
                  (mkSt (mkRoot None i cs) w) in
  (forall e,
      engine env (trace w1) (CConnection url username password true) = Raised e ->
      result = (Raised e, mkSt (mkRoot None i cs) w2))
  /\
  (engine env (trace w1) (CConnection url username password true) = Returned tt ->
   engine env (trace w2) (CTest conn) = Returned false ->
   result
   = (Returned None,
      mkSt (mkRoot (Some conn) i cs)
           (record_event (ELog "Failed to test connection to oVirt Engine.")
              (record_event (ECall (CTest conn)) w2)))
   /\ is_connected (self (snd result)) = true).
Proof.
  intros url w1 w2 conn result. subst result.
  rewrite connect_spec. cbv zeta. cbn [api ip children].
  fold url. fold w1. fold w2. fold conn.
  split.
  - intros e H. rewrite H. reflexivity.
  - intros Hc Ht. rewrite Hc, Ht. split; reflexivity.
Qed.

Lemma connect_failures_witness :
  let result := UIRoot_ui_command_connect DemoUnverified.env
                  "admin@internal" "secret" "engine-a"
                  (mkSt UIRoot_init Demo.disk) in
  fst result = Returned None
  /\ is_connected (self (snd result)) = true
  /\ ip (self (snd result)) = None
  /\ children (self (snd result)) = [].
Proof.
  cbv zeta.
  destruct (proj2 (connect_failures DemoUnverified.env
                     "admin@internal" "secret" "engine-a" None [] Demo.disk)
              eq_refl eq_refl) as [E _].
  unfold UIRoot_init. rewrite E. repeat split.
Defined.

(** X10: [disconnect] with a session.  When [close] returns, the root
    ends with no session, no address and no children, whatever it had, and
    the log says so; when [close] raises, the error is passed on and the
    root keeps its session, its address and its children. *)
Theorem disconnect_with_session
        (env : Env) (a : Connection) (i : option string)
        (cs : list Collection) (w : World) :
  (engine env (trace w) (CClose a) = Returned tt ->
   UIRoot_ui_command_disconnect env (mkSt (mkRoot (Some a) i cs) w)
   = (Returned tt,
      mkSt (mkRoot None None [])
           (record_event (ELog "Disconnected from oVirt Engine.")
              (record_event (ECall (CClose a)) w))))
  /\
  (forall e,
      engine env (trace w) (CClose a) = Raised e ->
      UIRoot_ui_command_disconnect env (mkSt (mkRoot (Some a) i cs) w)
      = (Raised e, mkSt (mkRoot (Some a) i cs) (record_event (ECall (CClose a)) w))).
Proof.
  split; [intro H | intros e H]; rewrite disconnect_spec; cbn [api children];
    rewrite H; [apply UIRoot_refresh_no_session | reflexivity].
Qed.

Lemma disconnect_with_session_witness :
  UIRoot_ui_command_disconnect (Demo.env UP None)
    (mkSt Demo.connected_root Demo.disk)
  = (Returned tt,
     mkSt (mkRoot None None [])
          (record_event (ELog "Disconnected from oVirt Engine.")
             (record_event (ECall (CClose Demo.old_connection)) Demo.disk))).
Proof.
  apply (disconnect_with_session (Demo.env UP None) Demo.old_connection
           (Some "engine-a") [] Demo.disk).
  reflexivity.
Defined.

(** X15: the root's [refresh] under a session, whether it returns or
    raises: the session and the address stay, the children it had are
    gone, the children it has are of the first categories in the order
    data centers, clusters, hosts, storage domains, templates, machines
    (so no category twice), nothing is logged and no file is touched. *)
Theorem root_refresh_shape
        (env : Env) (a : Connection) (i : option string)
        (cs : list Collection) (w : World) :
  let r := UIRoot_refresh env (mkSt (mkRoot (Some a) i cs) w) in
  api (self (snd r)) = Some a
  /\ ip (self (snd r)) = i
  /\ (exists k, map coll_category (children (self (snd r))) = firstn k six_categories)
  /\ log_lines (trace (world (snd r))) = log_lines (trace w)
  /\ files (world (snd r)) = files w.
Proof.
  destruct (UIRoot_refresh_session env a i cs w)
    as [Ha [Hi [[k [Hk _]] [_ [Hlog Hfiles]]]]].
  cbv zeta. repeat split; try assumption. exists k. exact Hk.
Qed.

(** X19: on every root the shell can reach, children imply a session:
    a root that shows any category is connected. *)
Theorem children_need_session (env : Env) (r : Root) :
  reachable env r -> children r <> [] -> is_connected r = true.
Proof.
  intros Hreach Hchildren. pose proof (reachable_inv env r Hreach) as Hinv.
  unfold is_connected. destruct (api r) as [a |] eqn:Ha; [reflexivity |].
  exfalso. apply Hchildren. apply Hinv. exact Ha.
Qed.

Lemma children_need_session_witness :
  is_connected
    (self (snd (UIRoot_ui_command_connect (Demo.env UP None)
                  "admin@internal" "secret" "engine-a"
                  (mkSt UIRoot_init Demo.disk))))
  = true.
Proof.
  apply (children_need_session (Demo.env UP None)).
  - apply (reach_root (Demo.env UP None) UIRoot_init Demo.disk
             (connect "admin@internal" "secret" "engine-a")
             (fst (run_root_command (Demo.env UP None)
                     (connect "admin@internal" "secret" "engine-a")
                     (mkSt UIRoot_init Demo.disk)))
             (snd (run_root_command (Demo.env UP None)
                     (connect "admin@internal" "secret" "engine-a")
                     (mkSt UIRoot_init Demo.disk)))).
    + apply reach_init.
    + reflexivity.
  - vm_compute. discriminate.
Defined.

(** ** Saving *)

(** X11: [saveconfig] writes nothing, whatever the path: the files and
    the directories on disk and the root are what they were, and when the
    command returns, all it did was to log "Configuration saved to"
    followed by the expanded path. *)
Theorem saveconfig_writes_nothing
        (env : Env) (savefile : option string) (st : St Root) :
  let f := expanduser env (match savefile with
                           | Some f => f
                           | None => default_save_file
                           end) in
  let result := UIRoot_ui_command_saveconfig env savefile st in
  files (world (snd result)) = files (world st)
  /\ dirs (world (snd result)) = dirs (world st)
  /\ self (snd result) = self st
  /\ (forall v, fst result = Returned v ->
                trace (world (snd result))
                = trace (world st) ++ [ELog ("Configuration saved to " +++ f)]).
Proof.
  intros f result. subst result. rewrite saveconfig_spec. fold f.
  destruct (String.eqb f default_save_file); repeat split.
  intros v H. discriminate H.
Qed.

Lemma saveconfig_writes_nothing_witness :
  trace (world (snd (UIRoot_ui_command_saveconfig (Demo.env UP None)
                       (Some "/tmp/ovirt.json")
                       (mkSt Demo.connected_root Demo.disk))))
  = [ELog "Configuration saved to /tmp/ovirt.json"].
Proof.
  exact (proj2 (proj2 (proj2
           (saveconfig_writes_nothing (Demo.env UP None) (Some "/tmp/ovirt.json")
              (mkSt Demo.connected_root Demo.disk)))) tt eq_refl).
Defined.

(** ** Creating a data center, and hosts that are not there *)

(** X12: [create] on the data centers.  When the add request raises, the
    error is passed on and nothing else happens: no listing, the children
    as they were.  When it returns, the children are rebuilt from what the
    engine then lists, and from nothing else: the new data center is a
    child exactly when the engine lists it. *)
Theorem data_center_create
        (env : Env) (name : string) (description : option string) (local : bool)
        (old : list Entry) (w : World) :
  let add := CAddDataCenter name
               (match description with Some d => d | None => "" end) local in
  let w1 := record_event (ECall add) w in
  let result := UIData_centers_ui_command_create env name description local
                  (mkSt (mkCollection Datacenters old) w) in
  (forall e,
      engine env (trace w) add = Raised e ->
      result = (Raised e, mkSt (mkCollection Datacenters old) w1))
  /\
  (forall dc l,
      engine env (trace w) add = Returned dc ->
      engine env (trace w1) (CList Datacenters) = Returned (Some l) ->
      NoDup (map res_name l) ->
      result
      = (Returned tt,
         mkSt (mkCollection Datacenters (map (entry_of Datacenters) l))
              (record_event (ECall (CList Datacenters)) w1))).
Proof.
  intros add w1 result. subst result.
  unfold UIData_centers_ui_command_create. fold add.
  split.
  - intros e H. unfold bind, sdk_call. cbn [self world]. rewrite H. reflexivity.
  - intros dc l Hadd Hl Hnd. unfold bind at 1. unfold sdk_call at 1.
    cbn [self world]. rewrite Hadd.
    exact (refresh_listed env Datacenters old w1 l Hl Hnd).
Qed.

Lemma data_center_create_witness :
  fst (UIData_centers_ui_command_create (Demo.env UP None) "Lab" None false
         (mkSt (mkCollection Datacenters []) Demo.disk))
  = Returned tt
  /\ map entry_name
       (coll_children
          (self (snd (UIData_centers_ui_command_create (Demo.env UP None)
                        "Lab" None false
                        (mkSt (mkCollection Datacenters []) Demo.disk)))))
     = ["Default"].
Proof.
  rewrite (proj2 (data_center_create (Demo.env UP None) "Lab" None false []
                    Demo.disk)
             (Demo.resource UP "Lab")
             (map (Demo.resource UP) (Demo.inventory Datacenters))
             eq_refl eq_refl ltac:(simpl; distinct_strings)).
  split; reflexivity.
Defined.

(** X13: [activate] and [deactivate] on a name the look-up does not find
    log that the host was not found and return; no call that changes
    anything was made and the node is as it was. *)
Theorem activate_deactivate_unknown
        (env : Env) (name : string) (node : Collection) (w : World) :
  first_match (engine env (trace w) (CListSearch Hosts ("name=" +++ name))) = None ->
  let not_found :=
    mkSt node
      (record_event (ELog ("Host " +++ name +++ " not found. Check spelling"))
         (record_event (ECall (CListSearch Hosts ("name=" +++ name))) w)) in
  UIHosts_ui_command_activate env name (mkSt node w) = (Returned tt, not_found)
  /\ UIHosts_ui_command_deactivate env name (mkSt node w) = (Returned tt, not_found)
  /\ mutations (trace (world not_found)) = mutations (trace w).
Proof.
  intros Hnone not_found. subst not_found.
  unfold UIHosts_ui_command_activate, UIHosts_ui_command_deactivate.
  split; [| split].
  - unfold bind at 1. rewrite find_host_spec, Hnone. reflexivity.
  - unfold bind at 1. rewrite find_host_spec, Hnone. reflexivity.
  - apply mutations_after_lookup.
Qed.

Lemma activate_deactivate_unknown_witness :
  UIHosts_ui_command_activate (Demo.env UP None) "node9"
    (mkSt Demo.hosts_node Demo.disk)
  = (Returned tt,
     mkSt Demo.hosts_node
          (record_event (ELog "Host node9 not found. Check spelling")
             (record_event (ECall (CListSearch Hosts "name=node9")) Demo.disk))).
Proof.
  apply (activate_deactivate_unknown (Demo.env UP None) "node9"
           Demo.hosts_node Demo.disk).
  reflexivity.
Defined.

(** ** Completing paths *)

Lemma insert_by_In (key : string -> string) (s x : string) (l : list string) :
  In x (insert_by key s l) <-> x = s \/ In x l.
Proof.
  induction l as [| y l IH]; cbn [insert_by].
  - simpl. intuition.
  - destruct (String.leb (key s) (key y)); simpl; [intuition |].
    rewrite IH. simpl. intuition.
Qed.

Lemma sorted_by_In (key : string -> string) (x : string) (l : list string) :
  In x (sorted_by key l) <-> In x l.
Proof.
  induction l as [| y l IH]; [reflexivity |].
  unfold sorted_by in *. cbn [fold_right]. rewrite insert_by_In, IH.
  simpl. intuition.
Qed.

Lemma complete_path_loop_spec (disk : Disk) (stat_fn : Z -> bool) :
  forall (entries acc : list string),
    match complete_path_loop disk stat_fn entries acc with
    | Returned out =>
        (forall entry, In entry entries -> exists st, os_stat disk entry = Returned st)
        /\ (forall x,
               In x out
               <-> In x acc
                   \/ exists entry st,
                       In entry entries
                       /\ os_stat disk entry = Returned st
                       /\ In x (completion_of stat_fn entry st))
    | Raised e => exists entry, In entry entries /\ os_stat disk entry = Raised e
    end.
Proof.
  induction entries as [| entry rest IH]; intro acc; cbn [complete_path_loop].
  - split; [intros entry [] |].
    intro x. split; [auto |]. intros [H | [entry [st [[] _]]]]. exact H.
  - destruct (os_stat disk entry) as [st | e] eqn:Hstat;
      [| exists entry; split; [now left | exact Hstat]].
    assert (forall acc',
               (forall x, In x acc' <-> In x acc \/ In x (completion_of stat_fn entry st)) ->
               match complete_path_loop disk stat_fn rest acc' with
               | Returned out =>
                   (forall entry0,
                       In entry0 (entry :: rest) ->
                       exists st0, os_stat disk entry0 = Returned st0)
                   /\ (forall x,
                          In x out
                          <-> In x acc
                              \/ exists entry0 st0,
                                  In entry0 (entry :: rest)
                                  /\ os_stat disk entry0 = Returned st0
                                  /\ In x (completion_of stat_fn entry0 st0))
               | Raised e =>
                   exists entry0, In entry0 (entry :: rest) /\ os_stat disk entry0 = Raised e
               end) as Hstep.
    { intros acc' Hacc. specialize (IH acc').
      destruct (complete_path_loop disk stat_fn rest acc') as [out | e].
      - destruct IH as [Hall Hin]. split.
        + intros entry0 [E | H]; [subst entry0; now exists st | now apply Hall].
        + intro x. rewrite Hin, Hacc. split.
          * intros [[H | H] | [entry0 [st0 [H0 [H1 H2]]]]].
            -- now left.
            -- right. exists entry, st. split; [now left | now split].
            -- right. exists entry0, st0. split; [now right | now split].
          * intros [H | [entry0 [st0 [[E | H0] [H1 H2]]]]].
            -- left. now left.
            -- subst entry0. rewrite Hstat in H1. inversion H1. subst st0.
               left. now right.
            -- right. exists entry0, st0. now repeat split.
      - destruct IH as [entry0 [H0 H1]]. exists entry0. split; [now right | exact H1]. }
    unfold completion_of in Hstep.
    destruct (S_ISDIR st); [| destruct (stat_fn st)]; apply Hstep; intro x.
    + rewrite in_app_iff. reflexivity.
    + rewrite in_app_iff. reflexivity.
    + simpl. intuition.
Qed.

(** X16: [complete_path] returns exactly when [os.stat] answers for every
    entry the glob gave (one entry that cannot be examined makes the whole
    completion raise); the completions are then the directories among the
    entries, each with a slash after it, and the other entries that
    [stat_fn] accepts, and nothing else. *)
Theorem complete_path_members (disk : Disk) (path : string) (stat_fn : Z -> bool) :
  ((exists out, complete_path disk path stat_fn = Returned out)
   <-> (forall entry,
           In entry (glob_glob disk (path +++ "*")) ->
           exists st, os_stat disk entry = Returned st))
  /\
  (forall out,
      complete_path disk path stat_fn = Returned out ->
      forall x,
        In x out
        <-> exists entry st,
            In entry (glob_glob disk (path +++ "*"))
            /\ os_stat disk entry = Returned st
            /\ In x (completion_of stat_fn entry st)).
Proof.
  unfold complete_path.
  pose proof (complete_path_loop_spec disk stat_fn (glob_glob disk (path +++ "*")) [])
    as Hloop.
  destruct (complete_path_loop disk stat_fn (glob_glob disk (path +++ "*")) [])
    as [filtered | e].
  - destruct Hloop as [Hall Hin]. split.
    + split; [intros _; exact Hall | intros _; eexists; reflexivity].
    + intros out E x. inversion E. subst out.
      rewrite sorted_by_In, Hin. simpl. intuition.
  - destruct Hloop as [entry [H0 H1]]. split.
    + split; [intros [out E]; discriminate E |].
      intro Hall. destruct (Hall entry H0) as [st Hst]. congruence.
    + intros out E. discriminate E.
Qed.

Lemma complete_path_members_witness :
  complete_path DemoDisk.disk "/root/" S_ISREG
  = Returned ["/root/a.json"; "/root/b.json"; "/root/backup/"].
Proof.
  destruct (proj2 (proj1 (complete_path_members DemoDisk.disk "/root/" S_ISREG)))
    as [out E].
  - intros entry _. unfold DemoDisk.disk, os_stat.
    destruct (String.eqb entry "/root/backup"); [eexists; reflexivity |].
    destruct (String.eqb entry "/root/agent.sock"); eexists; reflexivity.
  - reflexivity.
Defined.

(** *** The order of the completions *)

Lemma ascii_below_above (c1 c2 t : ascii) :
  Ascii.ltb c1 t = true -> Ascii.ltb c2 t = false -> Ascii.compare c1 c2 = Lt.
Proof.
  unfold Ascii.ltb, Ascii.compare. intros H1 H2.
  destruct (N.compare_spec (N_of_ascii c1) (N_of_ascii t)) as [E | L | G];
    try discriminate H1.
  destruct (N.compare_spec (N_of_ascii c2) (N_of_ascii t)) as [E | L2 | G];
    try discriminate H2; apply N.compare_lt_iff; lia.
Qed.

Lemma sort_key_low (s : string) :
  sorts_low s = true ->
  sort_key s = "" \/ exists c rest, sort_key s = String c rest /\ Ascii.ltb c "~" = true.
Proof.
  unfold sorts_low, sort_key. intro H. apply andb_prop in H. destruct H as [He Hb].
  apply negb_true_iff in He. rewrite He.
  destruct s as [| c rest]; [now left |].
  right. exists c, rest. split; [reflexivity | exact Hb].
Qed.

Lemma sort_key_high (s : string) :
  sorts_low s = false ->
  exists c rest, sort_key s = String c rest /\ Ascii.ltb c "~" = false.
Proof.
  unfold sorts_low, sort_key. intro H.
  destruct (endswith "/" s) eqn:He.
  - exists "~"%char, s. split; reflexivity.
  - cbn [negb andb] in H. destruct s as [| c rest]; [discriminate H |].
    exists c, rest. split; [reflexivity | exact H].
Qed.

Lemma low_before_high (a b : string) :
  sorts_low a = true -> sorts_low b = false ->
  String.leb (sort_key a) (sort_key b) = true
  /\ String.leb (sort_key b) (sort_key a) = false.
Proof.
  intros Ha Hb.
  destruct (sort_key_high b Hb) as [c2 [r2 [Eb Hc2]]].
  destruct (sort_key_low a Ha) as [Ea | [c1 [r1 [Ea Hc1]]]];
    rewrite Ea, Eb; unfold String.leb; cbn [String.compare].
  - split; reflexivity.
  - pose proof (ascii_below_above c1 c2 "~" Hc1 Hc2) as Hlt.
    rewrite Hlt. rewrite (Ascii.compare_antisym c2 c1), Hlt. split; reflexivity.
Qed.

Lemma insert_low (x : string) (hi : list string) :
  sorts_low x = true ->
  Forall (fun s => sorts_low s = false) hi ->
  forall lo,
    insert_by sort_key x (lo ++ hi) = insert_by sort_key x lo ++ hi.
Proof.
  intros Hx Hhi. induction lo as [| y lo IH]; cbn [app insert_by].
  - destruct hi as [| h t]; [reflexivity |].
    inversion Hhi as [| ? ? Hh _]. subst.
    destruct (low_before_high x h Hx Hh) as [Hle _].
    cbn [insert_by]. now rewrite Hle.
  - destruct (String.leb (sort_key x) (sort_key y)); [reflexivity |].
    now rewrite IH.
Qed.

Lemma insert_high (x : string) (hi : list string) :
  sorts_low x = false ->
  forall lo,
    Forall (fun s => sorts_low s = true) lo ->
    insert_by sort_key x (lo ++ hi) = lo ++ insert_by sort_key x hi.
Proof.
  intros Hx. induction lo as [| y lo IH]; intro Hlo; [reflexivity |].
  inversion Hlo as [| ? ? Hy Hrest]. subst.
  cbn [app insert_by].
  destruct (low_before_high y x Hy Hx) as [_ Hgt]. rewrite Hgt.
  now rewrite (IH Hrest).
Qed.

Lemma insert_by_Forall (P : string -> Prop) (x : string) (l : list string) :
  P x -> Forall P l -> Forall P (insert_by sort_key x l).
Proof.
  intros Hx Hl. apply Forall_forall. intros y Hy.
  apply insert_by_In in Hy. destruct Hy as [E | Hy]; [now subst |].
  rewrite Forall_forall in Hl. now apply Hl.
Qed.

Lemma sorted_by_key_split (l : list string) :
  exists lo hi,
    sorted_by sort_key l = lo ++ hi
    /\ Forall (fun s => sorts_low s = true) lo
    /\ Forall (fun s => sorts_low s = false) hi.
Proof.
  induction l as [| x l [lo [hi [E [Hlo Hhi]]]]].
  - exists [], []. repeat split; constructor.
  - unfold sorted_by in *. cbn [fold_right]. rewrite E.
    destruct (sorts_low x) eqn:Hx.
    + exists (insert_by sort_key x lo), hi. split; [| split].
      * now apply insert_low.
      * now apply insert_by_Forall.
      * exact Hhi.
    + exists lo, (insert_by sort_key x hi). split; [| split].
      * now apply insert_high.
      * exact Hlo.
      * now apply insert_by_Forall.
Qed.

(** X17: the completions come in two runs.  First the entries that are
    no directories and whose path starts with a character below the tilde;
    after them all the directories (with their slash), together with the
    entries whose path starts with a tilde or a character above it.  So a
    directory never stands before a file of the first kind, while a file
    that starts with a tilde can stand among the directories. *)
Theorem complete_path_directories_last
        (disk : Disk) (path : string) (stat_fn : Z -> bool) (out : list string) :
  complete_path disk path stat_fn = Returned out ->
  exists first last,
    out = first ++ last
    /\ Forall (fun s => endswith "/" s = false /\ below_tilde s = true) first
    /\ Forall (fun s => endswith "/" s = true \/ below_tilde s = false) last.
Proof.
  unfold complete_path. intro E.
  destruct (complete_path_loop disk stat_fn (glob_glob disk (path +++ "*")) [])
    as [filtered | e]; [| discriminate E].
  inversion E. subst out.
  destruct (sorted_by_key_split filtered) as [lo [hi [Hs [Hlo Hhi]]]].
  exists lo, hi. split; [exact Hs | split].
  - apply Forall_forall. intros s Hin. rewrite Forall_forall in Hlo.
    specialize (Hlo s Hin). unfold sorts_low in Hlo.
    apply andb_prop in Hlo. destruct Hlo as [H1 H2].
    apply negb_true_iff in H1. now split.
  - apply Forall_forall. intros s Hin. rewrite Forall_forall in Hhi.
    specialize (Hhi s Hin). unfold sorts_low in Hhi.
    destruct (endswith "/" s); [now left | right; exact Hhi].
Qed.

Lemma complete_path_directories_last_witness :
  exists first last,
    ["/root/a.json"; "/root/b.json"; "/root/backup/"] = first ++ last
    /\ Forall (fun s => endswith "/" s = false /\ below_tilde s = true) first
    /\ Forall (fun s => endswith "/" s = true \/ below_tilde s = false) last.
Proof.
  apply (complete_path_directories_last DemoDisk.disk "/root/" S_ISREG).
  reflexivity.
Defined.

Lemma length_snoc (e : string) (c : ascii) :
  String.length (e +++ String c "") = S (String.length e).
Proof. induction e as [| a e IH]; simpl; [reflexivity | now rewrite IH]. Qed.

Lemma endswith_slash_snoc (e : string) : endswith "/" (e +++ "/") = true.
Proof.
  unfold endswith. rewrite length_snoc. cbn [String.length Nat.sub].
  rewrite Nat.sub_0_r.
  assert (substring (String.length e) 1 (e +++ "/") = "/") as E.
  { induction e as [| a e IH]; [reflexivity |]. simpl. exact IH. }
  rewrite E. reflexivity.
Qed.

(** X18: completing the [savefile] parameter when one entry matches the
    text: a regular file is completed to its path and a space, a directory
    to its path and a slash without a space (so that completion can go on
    inside it), anything else to nothing.  For any other parameter there
    are no completions, and the disk is not looked at. *)
Theorem ui_complete_saveconfig_single
        (disk : Disk) (text : string) (entry : string) (st : Z) :
  (forall param, param <> "savefile" -> ui_complete_saveconfig disk text param = Returned [])
  /\
  (glob_glob disk (text +++ "*") = [entry] ->
   os_stat disk entry = Returned st ->
   endswith "/" entry = false ->
   ui_complete_saveconfig disk text "savefile"
   = Returned (if S_ISDIR st then [entry +++ "/"]
               else if S_ISREG st then [entry +++ " "]
               else [])).
Proof.
  split.
  - intros param Hne. unfold ui_complete_saveconfig.
    apply String.eqb_neq in Hne. now rewrite Hne.
  - intros Hglob Hstat Hend. unfold ui_complete_saveconfig, complete_path.
    rewrite String.eqb_refl. cbn [negb].
    rewrite Hglob. cbn [complete_path_loop]. rewrite Hstat.
    destruct (S_ISDIR st); [| destruct (S_ISREG st)];
      cbn [app complete_path_loop sorted_by fold_right insert_by].
    + now rewrite endswith_slash_snoc.
    + now rewrite Hend.
    + reflexivity.
Qed.

Lemma ui_complete_saveconfig_single_witness :
  ui_complete_saveconfig DemoDisk.disk "/root/ba" "savefile" = Returned ["/root/backup/"]
  /\ ui_complete_saveconfig DemoDisk.disk "/root/a." "savefile" = Returned ["/root/a.json "]
  /\ ui_complete_saveconfig DemoDisk.disk "/root/a." "clear_existing" = Returned [].
Proof.
  split; [| split].
  - exact (proj2 (ui_complete_saveconfig_single DemoDisk.disk "/root/ba"
                    "/root/backup" 16877%Z) eq_refl eq_refl eq_refl).
  - exact (proj2 (ui_complete_saveconfig_single DemoDisk.disk "/root/a."
                    "/root/a.json" 33188%Z) eq_refl eq_refl eq_refl).
  - apply (proj1 (ui_complete_saveconfig_single DemoDisk.disk "/root/a."
                    "/root/a.json" 33188%Z)).
    discriminate.
Defined.

(** ** The shape of the tree *)

Section TreeShape.

Variable env : Env.

Lemma run_collection_command_category (c : CollectionCommand) (st : St Collection) :
  coll_category (self (snd (run_collection_command env c st)))
  = coll_category (self st).
Proof.
  destruct st as [[cat ch] w]. unfold run_collection_command. run_monad.
  destruct c.
  - unfold Collection_refresh. run_monad.
    destruct cat;
      [ apply (UIData_centers_refresh_like env) | apply (UIClusters_refresh_like env)
      | apply (UIHosts_refresh_like env) | apply (UIStorage_domains_refresh_like env)
      | apply (UITemplates_refresh_like env) | apply (UIVMs_refresh_like env) ].
  - destruct cat; try reflexivity.
    unfold UIData_centers_ui_command_create. run_monad.
    destruct (engine env _ _) as [dc | e]; [| reflexivity].
    apply (UIData_centers_refresh_like env).
  - destruct cat; try reflexivity.
    unfold UIData_centers_ui_command_delete. run_monad.
    destruct (engine env _ (CListSearch _ _)) as [[[| dc l] |] | e]; try reflexivity.
    destruct (engine env _ (CRemove _ _)) as [[] | e]; [| reflexivity].
    apply (UIData_centers_refresh_like env).
  - destruct cat; try reflexivity.
    unfold bind. destruct fuel as [| fuel].
    + unfold UIHosts_ui_command_create. run_monad.
      destruct (engine env _ _) as [host | e]; reflexivity.
    + rewrite host_create_raises. cbv zeta.
      destruct (engine env _ _) as [host | e]; reflexivity.
  - destruct cat; try reflexivity.
    unfold UIHosts_ui_command_delete. unfold bind at 1. rewrite find_host_spec.
    destruct (first_match _) as [host |]; [| reflexivity].
    destruct (negb _); [reflexivity |]. run_monad.
    destruct (engine env _ (CRemove _ _)) as [[] | e]; [| reflexivity].
    apply (UIHosts_refresh_like env).
  - destruct cat; try reflexivity.
    unfold UIHosts_ui_command_deactivate. unfold bind at 1. rewrite find_host_spec.
    destruct (first_match _) as [host |]; [| reflexivity].
    destruct (negb _); [| reflexivity]. run_monad.
    destruct (engine env _ (CDeactivate _)) as [[] | e]; [| reflexivity].
    apply (UIHosts_refresh_like env).
  - destruct cat; try reflexivity.
    unfold UIHosts_ui_command_activate. unfold bind at 1. rewrite find_host_spec.
    destruct (first_match _) as [host |]; [| reflexivity].
    destruct (negb _); [| reflexivity]. run_monad.
    destruct (engine env _ (CActivate _)) as [[] | e]; [| reflexivity].
    apply (UIHosts_refresh_like env).
Qed.

Lemma UIRoot_refresh_shape (st : St Root) :
  root_shape (self (snd (UIRoot_refresh env st))).
Proof.
  destruct st as [[[a |] i cs] w].
  - destruct (UIRoot_refresh_session env a i cs w) as [_ [_ [[k [Hk _]] _]]].
    exists k. exact Hk.
  - rewrite UIRoot_refresh_no_session. exists 0. reflexivity.
Qed.

Lemma run_root_command_shape (c : RootCommand) (st : St Root) :
  root_shape (self st) -> root_shape (self (snd (run_root_command env c st))).
Proof.
  intro Hshape. destruct st as [r w]. destruct c; cbn [run_root_command].
  - unfold bind. rewrite connect_spec. cbv zeta.
    destruct (engine env _ (CConnection _ _ _ _)) as [[] | e]; [| exact Hshape].
    destruct (engine env _ (CTest _)) as [[|] | e]; try exact Hshape.
    unfold bind.
    match goal with
    | |- context [UIRoot_refresh env ?st0] =>
        pose proof (UIRoot_refresh_shape st0) as Hr;
        destruct (UIRoot_refresh env st0) as [[[] | e] st1]
    end; exact Hr.
  - rewrite disconnect_spec. destruct (api r) as [a |].
    + destruct (engine env (trace w) (CClose a)) as [[] | e]; [| exact Hshape].
      apply UIRoot_refresh_shape.
    + apply UIRoot_refresh_shape.
  - apply UIRoot_refresh_shape.
  - destruct (saveconfig_keeps_files env savefile (mkSt r w)) as [_ Hs].
    rewrite Hs. exact Hshape.
  - rewrite restoreconfig_spec. cbv zeta.
    destruct (assert_admin_attr env) as [[[] | e] |]; try exact Hshape.
    destruct (mem _ _); [| exact Hshape].
    pose proof (UIRoot_refresh_shape (mkSt r w)) as Hr.
    destruct (UIRoot_refresh env (mkSt r w)) as [[[] | e] st']; exact Hr.
Qed.

Lemma replace_nth_category (node' : Collection) :
  forall (l : list Collection) (i : nat) (node : Collection),
    nth_error l i = Some node ->
    coll_category node' = coll_category node ->
    map coll_category (replace_nth i node' l) = map coll_category l.
Proof.
  induction l as [| y l IH]; intros i node Hnth Hcat.
  - destruct i; discriminate Hnth.
  - destruct i as [| j]; cbn [replace_nth map].
    + inversion Hnth. subst y. now rewrite Hcat.
    + now rewrite (IH j node Hnth Hcat).
Qed.

Lemma reachable_shape (r : Root) : reachable env r -> root_shape r.
Proof.
  induction 1 as [| r w c o st' Hr IH Hrun | r w i node c o st' Hr IH Hnth Hrun].
  - exists 0. reflexivity.
  - pose proof (run_root_command_shape c (mkSt r w) IH) as Hs.
    rewrite Hrun in Hs. exact Hs.
  - destruct IH as [k Hk]. exists k. cbn [children].
    rewrite (replace_nth_category (self st') (children r) i node Hnth); [exact Hk |].
    pose proof (run_collection_command_category c (mkSt node w)) as Hc.
    rewrite Hrun in Hc. exact Hc.
Qed.

End TreeShape.

Lemma six_categories_prefix_NoDup (k : nat) : NoDup (firstn k six_categories).
Proof.
  do 7 (destruct k as [| k];
        [cbn; repeat (constructor; [simpl; intuition discriminate |]); constructor |]).
  cbn. repeat (constructor; [simpl; intuition discriminate |]). constructor.
Qed.

(** X20: whatever commands were run, on the root or on the collections
    under it, and whether they returned or raised, the children of the
    root are of the first [k] categories in the order data centers,
    clusters, hosts, storage domains, templates, machines: no category is
    there twice, and none comes before an earlier one. *)
Theorem reachable_root_shape (env : Env) (r : Root) :
  reachable env r ->
  (exists k, k <= 6 /\ map coll_category (children r) = firstn k six_categories)
  /\ NoDup (map coll_category (children r)).
Proof.
  intro Hreach. destruct (reachable_shape env r Hreach) as [k Hk]. split.
  - exists (Nat.min k 6). split; [apply Nat.le_min_r |].
    rewrite Hk. destruct (Nat.le_ge_cases k 6) as [Hle | Hge].
    + now rewrite Nat.min_l.
    + rewrite Nat.min_r by exact Hge.
      rewrite firstn_all2 by exact Hge. reflexivity.
  - rewrite Hk. apply six_categories_prefix_NoDup.
Qed.

Lemma reachable_root_shape_witness :
  NoDup (map coll_category
           (children
              (self (snd (run_root_command (Demo.env UP None)
                            (connect "admin@internal" "secret" "engine-a")
                            (mkSt UIRoot_init Demo.disk)))))).
Proof.
  apply (reachable_root_shape (Demo.env UP None)).
  apply (reach_root (Demo.env UP None) UIRoot_init Demo.disk
           (connect "admin@internal" "secret" "engine-a")
           (fst (run_root_command (Demo.env UP None)
                   (connect "admin@internal" "secret" "engine-a")
                   (mkSt UIRoot_init Demo.disk)))
           (snd (run_root_command (Demo.env UP None)
                   (connect "admin@internal" "secret" "engine-a")
                   (mkSt UIRoot_init Demo.disk)))).
  - apply reach_init.
  - reflexivity.
Defined.

(** X21: [delete] on the data centers, when the search by name has a
    first match: the command is the [remove] of that one object, and then
    [refresh]; further matches of the search are not touched.  However the
    [remove] and the listing end, the one call made that changes anything
    is the [remove] of the first match. *)
Theorem data_center_delete_found
        (env : Env) (name : string) (old : list Entry) (w : World) (dc : Resource) :
  first_match (engine env (trace w) (CListSearch Datacenters ("name=" +++ name)))
  = Some dc ->
  let result := UIData_centers_ui_command_delete env name
                  (mkSt (mkCollection Datacenters old) w) in
  result
  = (sdk_call env (CRemove Datacenters (res_id dc)) ;; UIData_centers_refresh env)
      (mkSt (mkCollection Datacenters old)
            (record_event (ECall (CListSearch Datacenters ("name=" +++ name))) w))
  /\ mutations (trace (world (snd result)))
     = mutations (trace w) ++ [ECall (CRemove Datacenters (res_id dc))].
Proof.
  intros Hfound result.
  assert (result
          = (sdk_call env (CRemove Datacenters (res_id dc)) ;; UIData_centers_refresh env)
              (mkSt (mkCollection Datacenters old)
                    (record_event (ECall (CListSearch Datacenters ("name=" +++ name))) w)))
    as E.
  { subst result. unfold UIData_centers_ui_command_delete. run_monad.
    destruct (engine env (trace w) (CListSearch Datacenters ("name=" +++ name)))
      as [[[| x l] |] | e]; simpl in Hfound; try discriminate Hfound.
    inversion Hfound. subst x. reflexivity. }
  split; [exact E |]. rewrite E. run_monad.
  destruct (engine env _ (CRemove _ _)) as [[] | e].
  - match goal with
    | |- context [UIData_centers_refresh env ?st0] =>
        destruct (UIData_centers_refresh_like env st0) as [_ Hw]
    end.
    rewrite Hw. cbn [self world trace record_event].
    rewrite !mutations_app. cbn. now rewrite !app_nil_r.
  - cbn [snd world trace record_event]. rewrite !mutations_app. cbn.
    now rewrite app_nil_r.
Qed.

Lemma data_center_delete_found_witness :
  mutations
    (trace (world (snd (UIData_centers_ui_command_delete (Demo.env UP None) "Default"
                          (mkSt (mkCollection Datacenters []) Demo.disk)))))
  = [ECall (CRemove Datacenters "id-Default")].
Proof.
  exact (proj2 (data_center_delete_found (Demo.env UP None) "Default" [] Demo.disk
                  (Demo.resource UP "Default") eq_refl)).
Defined.
